(** * KDEpy.binning: linear binning of one-dimensional data on an equidistant grid

    A shallow embedding of [src/KDEpy/binning.py] and the properties of
    [linbin_numpy], [linbin_cython] and [linear_binning].

    Numbers.  NumPy works on IEEE doubles; the embedding works on exact
    rationals ([Q]).  An input cell is a [np_float], which is either a finite
    rational or one of the three non-finite doubles, so that
    [np.asarray_chkfinite] has something to reject.  After that check every
    array is a [list Q].  Rounding is therefore not modelled: every statement
    below about returned values is a statement about the algorithm in exact
    arithmetic, and vectors are compared cell by cell with [Qeq].  Three
    things follow for the hypotheses of the theorems.  NumPy divides by zero
    without raising (it yields inf or nan and warns) where [Qdiv] yields [0]:
    theorems about returned values assume [min(grid) < max(grid)] and a
    non-zero sum of the weights.  A coordinate that is an integer in exact
    arithmetic can leave the floating-point transform a rounding error to
    either side, so the model does not fix the bucket of a sample next to a
    bucket boundary: the two neighbouring buckets behave differently at the
    coordinates [-1], [M] and [M + 1], and the theorems that name the
    outcome of a call keep the samples inside the grid range or at least a
    quarter of a grid step away from these three, while the invariance
    theorems compare two calls whose samples have the same buckets.  And
    the cast [astype(np.int)] is exact only inside the range of the C long:
    the theorem about a sample far from the grid bounds its coordinate.

    Errors.  The Python exceptions the module can raise are kept apart by
    class, as a caller sees them: [ValueError] (with its message),
    [AssertionError] (the [assert] on the grid) and [IndexError].

    Contents.  The NumPy primitives (module [np]); the three functions of
    [binning.py]; the module [cutils] as the specification describes it; the
    vocabulary of the statements; then the lemmas: sorting and runs, the
    accumulation loop, the cells of the result as sums of shares, the mass
    of the result, grid validation, the behaviour outside the grid range,
    invariance under reordering, scaling and shifting, and the samples
    placed relative to the grid. *)

From Stdlib Require Import String.
From Stdlib Require Import ZArith QArith Qabs Qround Qminmax Lqa Lia.
From Stdlib Require Import List Permutation Sorted Bool Setoid Morphisms.
Import ListNotations.

Open Scope Q_scope.

(** ** Values, exceptions and the error monad *)

Inductive np_float : Type :=
| Finite (q : Q)
| Inf
| NegInf
| NaN.

Inductive exception : Type :=
| ValueError (msg : string)
| AssertionError
| IndexError.

Inductive outcome (A : Type) : Type :=
| Return (a : A)
| Raise (e : exception).

Arguments Return {A} a.
Arguments Raise {A} e.

Definition bind {A B : Type} (m : outcome A) (k : A -> outcome B) : outcome B :=
  match m with
  | Return a => k a
  | Raise e => Raise e
  end.

Notation "x <- m ;; k" := (bind m (fun x => k))
  (at level 61, m at next level, right associativity).

Definition msg_nonfinite : string := "array must not contain infs or NaNs".
Definition msg_length : string := "Length of data must match length of weights.".
Definition msg_empty : string := "zero-size array to reduction operation which has no identity".

(** ** The NumPy primitives the module uses *)

Module np.

(** [np.asarray_chkfinite(a, dtype=np.float)] *)
Fixpoint asarray_chkfinite (a : list np_float) : outcome (list Q) :=
  match a with
  | [] => Return []
  | Finite q :: t => r <- asarray_chkfinite t ;; Return (q :: r)
  | _ :: _ => Raise (ValueError msg_nonfinite)
  end.

(** [np.diff(a)]: [a[i+1] - a[i]]; empty for fewer than two elements. *)
Fixpoint diff (a : list Q) : list Q :=
  match a with
  | x :: t => match t with
              | y :: _ => (y - x) :: diff t
              | [] => []
              end
  | [] => []
  end.

Definition ones_like {A : Type} (a : list A) : list Q := map (fun _ => 1) a.

Definition zeros (n : nat) : list Q := repeat 0 n.

(** Element-wise binary operation on two arrays of one shape. *)
Fixpoint zip_with {A B C : Type} (f : A -> B -> C) (a : list A) (b : list B) : list C :=
  match a, b with
  | x :: a', y :: b' => f x y :: zip_with f a' b'
  | _, _ => []
  end.

Definition rtol : Q := 1 # 100000.
Definition atol : Q := 1 # 100000000.

(** [np.isclose(a, b)] on finite values: [|a - b| <= atol + rtol * |b|]. *)
Definition isclose (a b : Q) : bool :=
  Qle_bool (Qabs (a - b)) (atol + rtol * Qabs b).

(** [np.allclose(a, b)] with the default tolerances. *)
Definition allclose (a b : list Q) : bool :=
  forallb (fun b => b) (zip_with isclose a b).

(** [np.sum(a)] *)
Definition sum (a : list Q) : Q := fold_right Qplus 0 a.

(** [np.min(a)], [np.max(a)]: a [ValueError] on an empty array. *)
Definition min (a : list Q) : outcome Q :=
  match a with
  | [] => Raise (ValueError msg_empty)
  | x :: t => Return (fold_left Qmin t x)
  end.

Definition max (a : list Q) : outcome Q :=
  match a with
  | [] => Raise (ValueError msg_empty)
  | x :: t => Return (fold_left Qmax t x)
  end.

(** Rounding toward zero, as C's [modf] and the cast to an integer do. *)
Definition trunc (t : Q) : Z := Z.quot (Qnum t) (Z.pos (Qden t)).

(** [np.modf(t)]: the fractional and the integral part of [t], both with the
    sign of [t]. *)
Definition modf (t : Q) : Q * Q :=
  (t - inject_Z (trunc t), inject_Z (trunc t)).

(** [a.astype(np.int)] on one cell: the cast rounds toward zero.  [np.int]
    is the C long; the model casts every rational exactly, which is what
    the cast does inside the range of the C long. *)
Definition astype_int (t : Q) : Z := trunc t.

(** [np.argsort(a)]: the indices that sort [a].  NumPy's default sort leaves
    the order of equal keys open; the model takes the stable one, by insertion
    of the indices from the last to the first. *)
Fixpoint insert_index (a : list Z) (i : nat) (l : list nat) : list nat :=
  match l with
  | [] => [i]
  | j :: t => if (nth i a 0 <=? nth j a 0)%Z then i :: l
              else j :: insert_index a i t
  end.

Definition argsort (a : list Z) : list nat :=
  fold_right (insert_index a) [] (seq 0 (length a)).

(** Indexing by an array of indices: [a[indices]]. *)
Definition take {A : Type} (d : A) (a : list A) (indices : list nat) : list A :=
  map (fun i => nth i a d) indices.

(** [np.unique(a)]: the sorted distinct values of [a]. *)
Fixpoint insert_unique (x : Z) (l : list Z) : list Z :=
  match l with
  | [] => [x]
  | y :: t => if (x <? y)%Z then x :: l
              else if (x =? y)%Z then l
              else y :: insert_unique x t
  end.

Definition unique (a : list Z) : list Z := fold_right insert_unique [] a.

(** [np.searchsorted(a, v, side)] on a sorted [a]: the number of elements
    before the insertion point, that is the length of the prefix of elements
    [< v] (left) or [<= v] (right). *)
Fixpoint searchsorted_left (a : list Z) (v : Z) : nat :=
  match a with
  | [] => O
  | x :: t => if (x <? v)%Z then S (searchsorted_left t v) else O
  end.

Fixpoint searchsorted_right (a : list Z) (v : Z) : nat :=
  match a with
  | [] => O
  | x :: t => if (x <=? v)%Z then S (searchsorted_right t v) else O
  end.

(** The slice [a[low:high]] for [0 <= low], [0 <= high]. *)
Definition slice {A : Type} (low high : nat) (a : list A) : list A :=
  firstn (high - low) (skipn low a).

(** Resolution of an integer index against an array of length [n]: a
    negative index counts from the end, anything outside [-n, n) raises. *)
Definition index (n : nat) (i : Z) : outcome nat :=
  if ((0 <=? i) && (i <? Z.of_nat n))%Z then Return (Z.to_nat i)
  else if ((- Z.of_nat n <=? i) && (i <? 0))%Z then Return (Z.to_nat (Z.of_nat n + i))
  else Raise IndexError.

Fixpoint add_at (i : nat) (x : Q) (a : list Q) : list Q :=
  match a with
  | [] => []
  | y :: t => match i with
              | O => (y + x) :: t
              | S i' => y :: add_at i' x t
              end
  end.

(** [a[i] += x] *)
Definition iadd (a : list Q) (i : Z) (x : Q) : outcome (list Q) :=
  k <- index (length a) i ;; Return (add_at k x a).

End np.

(** ** The module [binning] *)

(** The grid check shared by both strategies:
    [diffs = np.diff(grid_points)] and
    [assert np.allclose(np.ones_like(diffs) * diffs[0], diffs)].
    [diffs[0]] is read before the comparison, so an empty [diffs] raises
    [IndexError]. *)
Definition assert_equidistant (grid_points : list Q) : outcome unit :=
  let diffs := np.diff grid_points in
  match diffs with
  | [] => Raise IndexError
  | d0 :: _ =>
      if np.allclose (map (fun one => one * d0) (np.ones_like diffs)) diffs
      then Return tt
      else Raise AssertionError
  end.

(** [transformed_data = (data - min_grid) / dx] with
    [dx = (max_grid - min_grid) / num_intervals].  When the grid points are
    all equal, [dx] is zero and NumPy goes on with inf or nan, where [Qdiv]
    yields [0]. *)
Definition transform (data grid_points : list Q) : outcome (list Q) :=
  min_grid <- np.min grid_points ;;
  max_grid <- np.max grid_points ;;
  let num_intervals := inject_Z (Z.of_nat (length grid_points) - 1) in
  let dx := (max_grid - min_grid) / num_intervals in
  Return (map (fun d => (d - min_grid) / dx) data).

(** The loop of [linbin_numpy] over [unique_integrals]. *)
Fixpoint accumulate (unique_integrals integral : list Z)
    (neg_frac_weights frac_weights result : list Q) : outcome (list Q) :=
  match unique_integrals with
  | [] => Return result
  | grid_point :: rest =>
      let low_index := np.searchsorted_left integral grid_point in
      let high_index := np.searchsorted_right integral grid_point in
      result <- np.iadd result grid_point
                  (np.sum (np.slice low_index high_index neg_frac_weights)) ;;
      result <- np.iadd result (grid_point + 1)
                  (np.sum (np.slice low_index high_index frac_weights)) ;;
      accumulate rest integral neg_frac_weights frac_weights result
  end.

(** The part of [linbin_numpy] after the transform: from the transformed
    data and the normalised weights to the accumulator of length [M + 1]. *)
Definition bin_transformed (transformed_data weights : list Q) (M : nat)
  : outcome (list Q) :=
  let parts := map np.modf transformed_data in
  let fractional := map fst parts in
  let integral := map (fun p => np.astype_int (snd p)) parts in
  let indices_sorted := np.argsort integral in
  let integral := np.take 0%Z integral indices_sorted in
  let fractional := np.take 0 fractional indices_sorted in
  let weights := np.take 0 weights indices_sorted in
  let frac_weights := np.zip_with Qmult fractional weights in
  let neg_frac_weights := np.zip_with Qminus weights frac_weights in
  let unique_integrals := np.unique integral in
  let unique_integrals :=
    filter (fun u => (u >=? 0)%Z && (u <=? Z.of_nat M)%Z) unique_integrals in
  let result := np.zeros (M + 1) in
  accumulate unique_integrals integral neg_frac_weights frac_weights result.

Definition linbin_numpy (data grid_points : list np_float)
    (weights : option (list np_float)) : outcome (list Q) :=
  data <- np.asarray_chkfinite data ;;
  grid_points <- np.asarray_chkfinite grid_points ;;
  _ <- assert_equidistant grid_points ;;
  let weights :=
    match weights with
    | None => map Finite (np.ones_like data)
    | Some w => w
    end in
  weights <- np.asarray_chkfinite weights ;;
  let weights := map (fun w => w / np.sum weights) weights in
  if negb (length data =? length weights)%nat
  then Raise (ValueError msg_length)
  else
    transformed_data <- transform data grid_points ;;
    result <- bin_transformed transformed_data weights (length grid_points) ;;
    Return (removelast result).

(** The compiled module [cutils] is imported at load time and is not part of
    the Python source; [linbin_cython] is parametric in it. *)
Record cutils_module : Type := {
  iterate_data : list Q -> list Q -> outcome (list Q);
  iterate_data_weighted : list Q -> list Q -> list Q -> outcome (list Q)
}.

Definition linbin_cython (cutils : cutils_module)
    (data grid_points : list np_float) (weights : option (list np_float))
  : outcome (list Q) :=
  data <- np.asarray_chkfinite data ;;
  grid_points <- np.asarray_chkfinite grid_points ;;
  _ <- assert_equidistant grid_points ;;
  weights <-
    match weights with
    | None => Return None
    | Some w =>
        w <- np.asarray_chkfinite w ;;
        Return (Some (map (fun x => x / np.sum w) w))
    end ;;
  if match weights with
     | Some w => negb (length data =? length w)%nat
     | None => false
     end
  then Raise (ValueError msg_length)
  else
    transformed_data <- transform data grid_points ;;
    let result := np.zeros (length grid_points + 1) in
    match weights with
    | None =>
        result <- iterate_data cutils transformed_data result ;;
        Return (map (fun r => r / inject_Z (Z.of_nat (length transformed_data)))
                    (removelast result))
    | Some weights =>
        res <- iterate_data_weighted cutils transformed_data weights result ;;
        Return (removelast res)
    end.

(** The flag [_use_Cython] is set once, when the module is loaded: [True]
    exactly when [import cutils] succeeded.  The argument [cutils] is the
    outcome of that import: [Some] module when it is there ([_use_Cython]
    is [True]), [None] after [ModuleNotFoundError].  Both branches pass
    [weights=None] to the strategy. *)
Definition linear_binning (cutils : option cutils_module)
    (data grid_points : list np_float) (weights : option (list np_float))
  : outcome (list Q) :=
  match cutils with
  | Some c => linbin_cython c data grid_points None
  | None => linbin_numpy data grid_points None
  end.

(** ** The accelerated strategy, from its specification *)

(** Modelled from the spec: the compiled module [cutils] ([iterate_data],
    [iterate_data_weighted]) is missing from the sources.  Sections 4.4 and
    4.5 of the specification give its per-sample rule: with
    [b = floor(t)] and [f = t - b], a sample of weight [w] adds
    [w * (1 - f)] to slot [b] when [0 <= b < M] and [w * f] to slot [b + 1]
    when [0 <= b + 1 < M], and is dropped otherwise, in one pass over the
    samples.  [M] is the grid length; the accumulator handed over by
    [linbin_cython] has [M + 1] slots. *)
Definition spec_contribute (result : list Q) (t w : Q) : list Q :=
  let M := (Z.of_nat (length result) - 1)%Z in
  let b := Qfloor t in
  let f := t - inject_Z b in
  let result :=
    if ((0 <=? b) && (b <? M))%Z
    then np.add_at (Z.to_nat b) (w * (1 - f)) result else result in
  if ((0 <=? b + 1) && (b + 1 <? M))%Z
  then np.add_at (Z.to_nat (b + 1)) (w * f) result else result.

Fixpoint spec_iterate_data_weighted (transformed_data weights result : list Q)
  : list Q :=
  match transformed_data, weights with
  | t :: ts, w :: ws =>
      spec_iterate_data_weighted ts ws (spec_contribute result t w)
  | _, _ => result
  end.

Definition spec_iterate_data (transformed_data result : list Q) : list Q :=
  spec_iterate_data_weighted transformed_data
    (np.ones_like transformed_data) result.

Definition spec_cutils : cutils_module := {|
  iterate_data := fun ts result => Return (spec_iterate_data ts result);
  iterate_data_weighted :=
    fun ts ws result => Return (spec_iterate_data_weighted ts ws result)
|}.

(** ** Vocabulary of the statements *)

(** Two vectors agree cell by cell as rationals. *)
Definition vec_eq (a b : list Q) : Prop := Forall2 Qeq a b.

(** The grid check in the specification's words: every consecutive
    difference equals the first one within the tolerance of an
    all-close comparison. *)
Definition all_close_to_first (grid_points : list Q) : Prop :=
  match np.diff grid_points with
  | [] => True
  | d0 :: _ =>
      Forall (fun d => Qabs (d0 - d) <= np.atol + np.rtol * Qabs d)
             (np.diff grid_points)
  end.

(** The fractional part and the bucket that [linbin_numpy] computes for a
    transformed coordinate. *)
Definition fractional_of (t : Q) : Q := fst (np.modf t).
Definition integral_of (t : Q) : Z := np.astype_int (snd (np.modf t)).

(** What one sample of transformed coordinate [t] and weight [w] adds to
    slot [j] of the accumulator in [linbin_numpy]: the low share to its own
    bucket, the high share to the next one, for a bucket that passes the
    filter on [unique_integrals]. *)
Definition share (j : Z) (t w : Q) : Q :=
  (if (integral_of t =? j)%Z
   then w - fractional_of t * w else 0)
  + (if ((0 <=? integral_of t) && (integral_of t + 1 =? j))%Z
     then fractional_of t * w else 0).

(** The sum of the shares of all samples in slot [j]. *)
Definition scatter (j : Z) (transformed_data weights : list Q) : Q :=
  np.sum (np.zip_with (share j) transformed_data weights).

(** The sum of the values [vs[i]] over the positions whose key [ks[i]] is [k]. *)
Fixpoint sum_where (k : Z) (ks : list Z) (vs : list Q) : Q :=
  match ks, vs with
  | x :: ks', v :: vs' => (if (x =? k)%Z then v else 0) + sum_where k ks' vs'
  | _, _ => 0
  end.

(** The grid spacing [dx] and the transformed coordinate of a sample, for a
    grid of [M] points between [gmin] and [gmax]. *)
Definition spacing (gmin gmax : Q) (M : nat) : Q :=
  (gmax - gmin) / inject_Z (Z.of_nat M - 1).

Definition coordinate (gmin gmax : Q) (M : nat) (d : Q) : Q :=
  (d - gmin) / spacing gmin gmax M.

(** The weights before normalisation: the ones given, or all ones. *)
Definition weights_or_ones (data : list Q) (weights : option (list Q)) : list Q :=
  match weights with
  | None => np.ones_like data
  | Some w => w
  end.

(** Finite arguments as the functions receive them. *)
Definition finite (a : list Q) : list np_float := map Finite a.
Definition finite_opt (weights : option (list Q)) : option (list np_float) :=
  option_map finite weights.

(** The normalised weights [linbin_numpy] works with.  For weights whose
    sum is zero NumPy yields inf or nan where [Qdiv] yields [0]. *)
Definition normalised (weights : list Q) : list Q :=
  map (fun w => w / np.sum weights) weights.

(** A list that is strictly increasing. *)
Definition increasing (l : list Z) : Prop := StronglySorted Z.lt l.

(** The value of a (key, value) pair when its key is [k], else zero. *)
Definition pick (k : Z) (p : Z * Q) : Q := if (fst p =? k)%Z then snd p else 0.

(** The two increments of one turn of the loop of [linbin_numpy], and what
    the turn for the bucket [u] adds to slot [j]. *)
Definition low_sum (integral : list Z) (neg_frac_weights : list Q) (u : Z) : Q :=
  np.sum (np.slice (np.searchsorted_left integral u)
                   (np.searchsorted_right integral u) neg_frac_weights).

Definition high_sum (integral : list Z) (frac_weights : list Q) (u : Z) : Q :=
  np.sum (np.slice (np.searchsorted_left integral u)
                   (np.searchsorted_right integral u) frac_weights).

Definition increment (integral : list Z) (neg_frac_weights frac_weights : list Q)
    (j : nat) (u : Z) : Q :=
  (if (u =? Z.of_nat j)%Z then low_sum integral neg_frac_weights u else 0)
  + (if (u + 1 =? Z.of_nat j)%Z then high_sum integral frac_weights u else 0).

(** The filter on [unique_integrals]. *)
Definition in_filter (M : nat) (u : Z) : bool :=
  ((u >=? 0) && (u <=? Z.of_nat M))%Z.

(** An outcome that is a returned vector, equal to [exact] cell by cell. *)
Definition returns (o : outcome (list Q)) (exact : list Q) : Prop :=
  exists out, o = Return out /\ vec_eq out exact.

(** The same, and [np.allclose(out, approx)] has the value [close]. *)
Definition returns_close (o : outcome (list Q)) (exact approx : list Q)
    (close : bool) : Prop :=
  exists out, o = Return out /\ vec_eq out exact
              /\ np.allclose out approx = close.

(** The decomposition in the specification's words: the bucket is the
    floor, the fractional part is the rest and lies in [[0, 1)]. *)
Definition floor_decomposition (t : Q) : Prop :=
  integral_of t = Qfloor t
  /\ fractional_of t == t - inject_Z (Qfloor t)
  /\ 0 <= fractional_of t /\ fractional_of t < 1.

(** What one sample adds to slot [j] of an accumulator of [n] slots in the
    accelerated strategy as specified. *)
Definition spec_share (n : nat) (j : nat) (t w : Q) : Q :=
  let M := (Z.of_nat n - 1)%Z in
  let b := Qfloor t in
  let f := t - inject_Z b in
  (if ((0 <=? b) && (b <? M) && (b =? Z.of_nat j))%Z then w * (1 - f) else 0)
  + (if ((0 <=? b + 1) && (b + 1 <? M) && (b + 1 =? Z.of_nat j))%Z
     then w * f else 0).

(** Two outcomes agree: the same exception, or vectors equal cell by cell. *)
Definition outcome_eq (a b : outcome (list Q)) : Prop :=
  match a, b with
  | Return x, Return y => vec_eq x y
  | Raise e, Raise e' => e = e'
  | _, _ => False
  end.

(** The exceptions of the grid validation statement
    [assert np.allclose(np.ones_like(diffs) * diffs[0], diffs)]: the
    [IndexError] of [diffs[0]] and the [AssertionError] of the [assert].
    The specification names them [InvalidGridError]. *)
Definition InvalidGridError (e : exception) : Prop :=
  e = IndexError \/ e = AssertionError.

(** A grid the specification calls unusable: fewer than two points, or
    consecutive differences that are not all close to the first one. *)
Definition unusable (grid_points : list Q) : Prop :=
  (length grid_points < 2)%nat \/ ~ all_close_to_first grid_points.



(** A cell that [np.asarray_chkfinite] accepts. *)
Definition is_finite (x : np_float) : bool :=
  match x with Finite _ => true | _ => false end.

(** Some sample falls in the bucket [M]. *)
Definition overflows (M : nat) (transformed_data : list Q) : Prop :=
  Exists (fun t => integral_of t = Z.of_nat M) transformed_data.

(** The [j]-th point of the exact grid of [M] points from [gmin] to [gmax]. *)
Definition grid_point (gmin gmax : Q) (M : nat) (j : nat) : Q :=
  gmin + inject_Z (Z.of_nat j) * spacing gmin gmax M.



(** ** Lists, sums and the monad *)

Lemma bind_return {A B : Type} (a : A) (k : A -> outcome B) :
  bind (Return a) k = k a.
Proof. reflexivity. Qed.

Lemma asarray_chkfinite_finite (a : list Q) :
  np.asarray_chkfinite (finite a) = Return a.
Proof.
  unfold finite. induction a as [|x a IH]; simpl; [reflexivity|].
  rewrite IH. reflexivity.
Qed.


Lemma sum_perm (a b : list Q) : Permutation a b -> np.sum a == np.sum b.
Proof.
  induction 1; simpl.
  - reflexivity.
  - rewrite IHPermutation. reflexivity.
  - ring.
  - rewrite IHPermutation1. exact IHPermutation2.
Qed.

Lemma sum_map_ext {A : Type} (f g : A -> Q) (l : list A) :
  (forall x, In x l -> f x == g x) ->
  np.sum (map f l) == np.sum (map g l).
Proof.
  induction l as [|x l IH]; intros H; simpl.
  - reflexivity.
  - rewrite (H x (or_introl eq_refl)), IH.
    + reflexivity.
    + intros y Hy. apply H. right. exact Hy.
Qed.

Lemma sum_map_plus {A : Type} (f g : A -> Q) (l : list A) :
  np.sum (map (fun x => f x + g x) l) == np.sum (map f l) + np.sum (map g l).
Proof.
  induction l as [|x l IH]; simpl.
  - ring.
  - rewrite IH. ring.
Qed.

Lemma sum_zeros (n : nat) : np.sum (np.zeros n) == 0.
Proof.
  induction n as [|n IH]; simpl.
  - reflexivity.
  - unfold np.zeros in IH. rewrite IH. ring.
Qed.

Lemma map_nth_seq {A : Type} (d : A) (l : list A) :
  map (fun i => nth i l d) (seq 0 (length l)) = l.
Proof.
  induction l as [|x l IH]; simpl; [reflexivity|].
  f_equal. rewrite <- seq_shift, map_map. exact IH.
Qed.

Lemma take_perm {A : Type} (d : A) (a : list A) (idx : list nat) :
  Permutation idx (seq 0 (length a)) -> Permutation (np.take d a idx) a.
Proof.
  intros H. unfold np.take.
  eapply Permutation_trans.
  - apply Permutation_map. exact H.
  - rewrite map_nth_seq. apply Permutation_refl.
Qed.

Lemma zip_with_length {A B C : Type} (f : A -> B -> C) (a : list A) (b : list B) :
  length a = length b -> length (np.zip_with f a b) = length a.
Proof.
  revert b. induction a as [|x a IH]; intros [|y b] H; simpl in *;
    try reflexivity; try discriminate.
  f_equal. apply IH. congruence.
Qed.

Lemma zip_with_nth {A B C : Type} (f : A -> B -> C) (a : list A) (b : list B)
    (da : A) (db : B) (dc : C) (i : nat) :
  length a = length b -> (i < length a)%nat ->
  nth i (np.zip_with f a b) dc = f (nth i a da) (nth i b db).
Proof.
  revert b i. induction a as [|x a IH]; intros [|y b] i H Hi; simpl in *;
    try lia; try discriminate.
  destruct i as [|i]; [reflexivity|].
  apply IH; [congruence | lia].
Qed.

Lemma take_zip_with {A B C : Type} (f : A -> B -> C) (a : list A) (b : list B)
    (da : A) (db : B) (dc : C) (idx : list nat) :
  length a = length b -> Forall (fun i => (i < length a)%nat) idx ->
  np.take dc (np.zip_with f a b) idx
  = np.zip_with f (np.take da a idx) (np.take db b idx).
Proof.
  intros Hlen. induction 1 as [|i idx Hi _ IH]; simpl; [reflexivity|].
  rewrite IH. f_equal. apply zip_with_nth; assumption.
Qed.

Lemma take_length {A : Type} (d : A) (a : list A) (idx : list nat) :
  length (np.take d a idx) = length idx.
Proof. apply length_map. Qed.

(** ** Sorting by [argsort] and the distinct values of [unique] *)

Lemma insert_index_perm (a : list Z) (i : nat) (l : list nat) :
  Permutation (np.insert_index a i l) (i :: l).
Proof.
  induction l as [|j l IH]; simpl.
  - apply Permutation_refl.
  - destruct (nth i a 0 <=? nth j a 0)%Z.
    + apply Permutation_refl.
    + eapply Permutation_trans; [apply perm_skip, IH | apply perm_swap].
Qed.

Lemma argsort_perm (a : list Z) :
  Permutation (np.argsort a) (seq 0 (length a)).
Proof.
  unfold np.argsort. generalize (seq 0 (length a)) as l.
  induction l as [|i l IH]; simpl.
  - apply Permutation_refl.
  - eapply Permutation_trans; [apply insert_index_perm | apply perm_skip, IH].
Qed.

Lemma insert_index_sorted (a : list Z) (i : nat) (l : list nat) :
  Sorted Z.le (np.take 0%Z a l) ->
  Sorted Z.le (np.take 0%Z a (np.insert_index a i l)).
Proof.
  unfold np.take.
  induction l as [|j l IH]; simpl; intros H.
  - repeat constructor.
  - destruct (nth i a 0 <=? nth j a 0)%Z eqn:E; simpl.
    + constructor; [exact H|]. constructor. apply Z.leb_le. exact E.
    + apply Z.leb_gt in E.
      inversion H as [|x r Hs Hh]; subst.
      constructor; [apply IH; exact Hs|].
      destruct l as [|j' l]; simpl.
      * constructor. lia.
      * destruct (nth i a 0 <=? nth j' a 0)%Z; simpl.
        -- constructor. lia.
        -- inversion Hh; subst. constructor. assumption.
Qed.

Lemma argsort_sorted (a : list Z) :
  StronglySorted Z.le (np.take 0%Z a (np.argsort a)).
Proof.
  apply Sorted_StronglySorted; [exact Z.le_trans|].
  unfold np.argsort. generalize (seq 0 (length a)) as l.
  induction l as [|i l IH]; simpl.
  - constructor.
  - apply insert_index_sorted. exact IH.
Qed.

Lemma argsort_in_range (a : list Z) :
  Forall (fun i => (i < length a)%nat) (np.argsort a).
Proof.
  apply Forall_forall. intros i Hi.
  apply (Permutation_in _ (argsort_perm a)) in Hi.
  apply in_seq in Hi. lia.
Qed.

Lemma argsort_length (a : list Z) : length (np.argsort a) = length a.
Proof.
  rewrite (Permutation_length (argsort_perm a)). apply length_seq.
Qed.

Lemma insert_unique_in (x y : Z) (l : list Z) :
  In y (np.insert_unique x l) <-> y = x \/ In y l.
Proof.
  induction l as [|z l IH]; simpl.
  - intuition.
  - destruct (x <? z)%Z eqn:E1; simpl; [intuition|].
    destruct (x =? z)%Z eqn:E2; simpl.
    + apply Z.eqb_eq in E2. subst. intuition.
    + rewrite IH. intuition.
Qed.

Lemma unique_in (y : Z) (a : list Z) : In y (np.unique a) <-> In y a.
Proof.
  unfold np.unique. induction a as [|x a IH]; simpl.
  - reflexivity.
  - rewrite insert_unique_in, IH. intuition.
Qed.


Lemma insert_unique_increasing (x : Z) (l : list Z) :
  increasing l -> increasing (np.insert_unique x l).
Proof.
  unfold increasing.
  induction l as [|z l IH]; simpl; intros H.
  - repeat constructor.
  - inversion H as [|? ? Hs Hf]; subst.
    destruct (x <? z)%Z eqn:E1.
    + apply Z.ltb_lt in E1. constructor; [exact H|].
      constructor; [exact E1|].
      eapply Forall_impl; [|exact Hf]. simpl. intros; lia.
    + apply Z.ltb_ge in E1.
      destruct (x =? z)%Z eqn:E2; [exact H|].
      apply Z.eqb_neq in E2.
      constructor; [apply IH; exact Hs|].
      apply Forall_forall. intros y Hy.
      apply insert_unique_in in Hy. destruct Hy as [->|Hy]; [lia|].
      rewrite Forall_forall in Hf. apply Hf. exact Hy.
Qed.

Lemma unique_increasing (a : list Z) : increasing (np.unique a).
Proof.
  unfold np.unique. induction a as [|x a IH]; simpl.
  - constructor.
  - apply insert_unique_increasing. exact IH.
Qed.

Lemma increasing_NoDup (l : list Z) : increasing l -> NoDup l.
Proof.
  induction 1 as [|x l Hs IH Hf]; constructor; [|exact IH].
  intros Hin. rewrite Forall_forall in Hf. specialize (Hf x Hin). lia.
Qed.

Lemma filter_NoDup {A : Type} (p : A -> bool) (l : list A) :
  NoDup l -> NoDup (filter p l).
Proof.
  induction 1 as [|x l Hx Hn IH]; simpl; [constructor|].
  destruct (p x); [|exact IH].
  constructor; [|exact IH].
  intros Hin. apply filter_In in Hin. tauto.
Qed.

(** ** A run of a sorted key array, found by binary search *)

Lemma searchsorted_left_first (k : Z) (ks : list Z) :
  Forall (fun y => (k <= y)%Z) ks -> np.searchsorted_left ks k = O.
Proof.
  intros H. destruct ks as [|y ks]; simpl; [reflexivity|].
  inversion H; subst.
  destruct (y <? k)%Z eqn:E; [|reflexivity].
  apply Z.ltb_lt in E. lia.
Qed.

Lemma sum_where_absent (k : Z) (ks : list Z) (vs : list Q) :
  ~ In k ks -> sum_where k ks vs == 0.
Proof.
  revert vs. induction ks as [|x ks IH]; intros [|v vs] H; simpl;
    try reflexivity.
  destruct (x =? k)%Z eqn:E.
  - apply Z.eqb_eq in E. exfalso. apply H. left. exact E.
  - rewrite IH; [ring|]. intros Hin. apply H. right. exact Hin.
Qed.

Lemma run_sum (k : Z) (ks : list Z) (vs : list Q) :
  StronglySorted Z.le ks -> length ks = length vs ->
  np.sum (np.slice (np.searchsorted_left ks k) (np.searchsorted_right ks k) vs)
  == sum_where k ks vs.
Proof.
  intros Hs. revert vs.
  induction Hs as [|x ks Hs IH Hf]; intros [|v vs] Hlen; simpl in *;
    try reflexivity; try discriminate.
  injection Hlen as Hlen.
  destruct (x <? k)%Z eqn:E1.
  - apply Z.ltb_lt in E1.
    assert (E2 : (x <=? k)%Z = true) by (apply Z.leb_le; lia).
    assert (E3 : (x =? k)%Z = false) by (apply Z.eqb_neq; lia).
    rewrite E2, E3. unfold np.slice in *. simpl.
    rewrite IH by exact Hlen. ring.
  - apply Z.ltb_ge in E1.
    destruct (x <=? k)%Z eqn:E2.
    + apply Z.leb_le in E2.
      assert (E3 : (x =? k)%Z = true) by (apply Z.eqb_eq; lia).
      rewrite E3. specialize (IH vs Hlen).
      rewrite searchsorted_left_first in IH.
      * unfold np.slice in *. simpl in *.
        rewrite Nat.sub_0_r in IH. rewrite IH. reflexivity.
      * eapply Forall_impl; [|exact Hf]. simpl. intros; lia.
    + apply Z.leb_gt in E2.
      assert (E3 : (x =? k)%Z = false) by (apply Z.eqb_neq; lia).
      rewrite E3. unfold np.slice. simpl.
      rewrite sum_where_absent; [ring|].
      intros Hin. rewrite Forall_forall in Hf. specialize (Hf k Hin). lia.
Qed.


Lemma sum_where_combine (k : Z) (ks : list Z) (vs : list Q) :
  sum_where k ks vs = np.sum (map (pick k) (combine ks vs)).
Proof.
  revert vs. induction ks as [|x ks IH]; intros [|v vs]; simpl;
    try reflexivity.
  rewrite IH. reflexivity.
Qed.

Lemma combine_take (ks : list Z) (vs : list Q) (idx : list nat) :
  length ks = length vs ->
  combine (np.take 0%Z ks idx) (np.take 0 vs idx)
  = np.take (0%Z, 0) (combine ks vs) idx.
Proof.
  intros Hlen. unfold np.take.
  induction idx as [|i idx IH]; simpl; [reflexivity|].
  rewrite IH, combine_nth by exact Hlen. reflexivity.
Qed.

(** Reordering keys and values by one permutation of the positions leaves
    the sum over a key unchanged. *)
Lemma sum_where_take (k : Z) (ks : list Z) (vs : list Q) (idx : list nat) :
  length ks = length vs ->
  Permutation idx (seq 0 (length ks)) ->
  sum_where k (np.take 0%Z ks idx) (np.take 0 vs idx) == sum_where k ks vs.
Proof.
  intros Hlen Hp.
  rewrite !sum_where_combine, combine_take by exact Hlen.
  apply sum_perm, Permutation_map, take_perm.
  rewrite length_combine, <- Hlen, Nat.min_id. exact Hp.
Qed.

(** ** In-place addition and the accumulation loop *)

Lemma add_at_length (i : nat) (x : Q) (a : list Q) :
  length (np.add_at i x a) = length a.
Proof.
  revert i. induction a as [|y a IH]; intros [|i]; simpl; try reflexivity.
  f_equal. apply IH.
Qed.

Lemma add_at_nth (i j : nat) (x : Q) (a : list Q) :
  (i < length a)%nat ->
  nth j (np.add_at i x a) 0 == nth j a 0 + (if (j =? i)%nat then x else 0).
Proof.
  revert i j. induction a as [|y a IH]; intros i j Hi; simpl in *; [lia|].
  destruct i as [|i], j as [|j]; simpl; try ring.
  apply IH. lia.
Qed.

Lemma sum_add_at (i : nat) (x : Q) (a : list Q) :
  (i < length a)%nat -> np.sum (np.add_at i x a) == np.sum a + x.
Proof.
  revert i. induction a as [|y a IH]; intros i Hi; simpl in *; [lia|].
  destruct i as [|i]; simpl.
  - ring.
  - rewrite IH by lia. ring.
Qed.

Lemma iadd_in_range (a : list Q) (i : Z) (x : Q) :
  (0 <= i < Z.of_nat (length a))%Z ->
  np.iadd a i x = Return (np.add_at (Z.to_nat i) x a).
Proof.
  intros H. unfold np.iadd, np.index.
  replace ((0 <=? i)%Z && (i <? Z.of_nat (length a))%Z) with true.
  - reflexivity.
  - symmetry. apply andb_true_iff. split; [apply Z.leb_le | apply Z.ltb_lt]; lia.
Qed.

Lemma iadd_past_end (a : list Q) (i : Z) (x : Q) :
  (Z.of_nat (length a) <= i)%Z -> np.iadd a i x = Raise IndexError.
Proof.
  intros H. unfold np.iadd, np.index.
  replace (i <? Z.of_nat (length a))%Z with false
    by (symmetry; apply Z.ltb_ge; lia).
  replace (i <? 0)%Z with false by (symmetry; apply Z.ltb_ge; lia).
  rewrite !andb_false_r. reflexivity.
Qed.

Section Accumulate.

Variables (integral : list Z) (neg_frac_weights frac_weights : list Q).

Lemma accumulate_in_range (U : list Z) : forall result : list Q,
  Forall (fun u => (0 <= u /\ u + 1 < Z.of_nat (length result))%Z) U ->
  exists result',
    accumulate U integral neg_frac_weights frac_weights result = Return result'
    /\ length result' = length result
    /\ forall j, nth j result' 0
                 == nth j result 0
                    + np.sum (map (increment integral neg_frac_weights
                                             frac_weights j) U).
Proof.
  induction U as [|u U IH]; intros result HU; simpl.
  - exists result. repeat split. intros j. ring.
  - inversion HU as [|? ? [Hu0 Hu1] HU']; subst.
    rewrite iadd_in_range by lia. simpl.
    rewrite iadd_in_range by (rewrite add_at_length; lia). simpl.
    fold (low_sum integral neg_frac_weights u)
         (high_sum integral frac_weights u).
    set (r2 := np.add_at (Z.to_nat (u + 1)) (high_sum integral frac_weights u)
                 (np.add_at (Z.to_nat u) (low_sum integral neg_frac_weights u)
                            result)).
    assert (Hlen : length r2 = length result)
      by (unfold r2; rewrite !add_at_length; reflexivity).
    destruct (IH r2) as [r' [Hr' [Hl' Hn']]].
    { rewrite Hlen. exact HU'. }
    exists r'. split; [exact Hr'|]. split; [congruence|].
    intros j. rewrite Hn'. unfold r2.
    rewrite add_at_nth by (rewrite add_at_length; lia).
    rewrite add_at_nth by lia.
    unfold increment at 2.
    replace (u =? Z.of_nat j)%Z with (j =? Z.to_nat u)%nat.
    2:{ destruct (Nat.eqb_spec j (Z.to_nat u)), (Z.eqb_spec u (Z.of_nat j));
        try reflexivity; lia. }
    replace (u + 1 =? Z.of_nat j)%Z with (j =? Z.to_nat (u + 1))%nat.
    2:{ destruct (Nat.eqb_spec j (Z.to_nat (u + 1))),
                 (Z.eqb_spec (u + 1) (Z.of_nat j)); try reflexivity; lia. }
    ring.
Qed.

(** A bucket equal to the length of the grid passes the filter, and its
    second increment falls outside the accumulator. *)
Lemma accumulate_overflow (U : list Z) : forall result : list Q,
  Forall (fun u => (0 <= u < Z.of_nat (length result))%Z) U ->
  In (Z.of_nat (length result) - 1)%Z U ->
  accumulate U integral neg_frac_weights frac_weights result = Raise IndexError.
Proof.
  induction U as [|u U IH]; intros result HU Hin; simpl; [destruct Hin|].
  inversion HU as [|? ? Hu HU']; subst.
  rewrite iadd_in_range by lia. simpl.
  destruct (Z.eq_dec u (Z.of_nat (length result) - 1)) as [E|E].
  - rewrite iadd_past_end by (rewrite add_at_length; lia). reflexivity.
  - rewrite iadd_in_range by (rewrite add_at_length; lia). simpl.
    apply IH.
    + rewrite !add_at_length. exact HU'.
    + rewrite !add_at_length. destruct Hin as [Hin|Hin]; [congruence|exact Hin].
Qed.

End Accumulate.

(** ** [linbin_numpy] scatters the shares of the samples *)

Lemma in_filter_spec (M : nat) (u : Z) :
  in_filter M u = true <-> (0 <= u <= Z.of_nat M)%Z.
Proof.
  unfold in_filter. rewrite andb_true_iff, Z.geb_le, Z.leb_le. tauto.
Qed.

Section Transformed.

Variables (transformed_data weights : list Q) (M : nat).
Hypothesis same_length : length transformed_data = length weights.

Let integral0 : list Z := map integral_of transformed_data.
Let fractional0 : list Q := map fractional_of transformed_data.
Let frac_weights0 : list Q := np.zip_with Qmult fractional0 weights.
Let neg_frac_weights0 : list Q := np.zip_with Qminus weights frac_weights0.
Let indices_sorted : list nat := np.argsort integral0.
Let integral : list Z := np.take 0%Z integral0 indices_sorted.
Let frac_weights : list Q := np.take 0 frac_weights0 indices_sorted.
Let neg_frac_weights : list Q := np.take 0 neg_frac_weights0 indices_sorted.
Let unique_integrals : list Z := filter (in_filter M) (np.unique integral).

Lemma bin_transformed_loop :
  bin_transformed transformed_data weights M
  = accumulate unique_integrals integral neg_frac_weights frac_weights
               (np.zeros (M + 1)).
Proof.
  unfold bin_transformed.
  rewrite !map_map.
  change (map (fun x => fst (np.modf x)) transformed_data) with fractional0.
  change (map (fun x => np.astype_int (snd (np.modf x))) transformed_data)
    with integral0.
  fold indices_sorted. fold integral.
  assert (Hl0 : length integral0 = length transformed_data)
    by apply length_map.
  assert (Hf0 : length fractional0 = length weights)
    by (unfold fractional0; rewrite length_map; exact same_length).
  assert (Hfw0 : length frac_weights0 = length weights).
  { unfold frac_weights0. rewrite zip_with_length; assumption. }
  assert (Hidx : Forall (fun i => (i < length weights)%nat) indices_sorted).
  { rewrite <- same_length, <- Hl0. apply argsort_in_range. }
  assert (E1 : np.zip_with Qmult (np.take 0 fractional0 indices_sorted)
                 (np.take 0 weights indices_sorted) = frac_weights).
  { unfold frac_weights, frac_weights0. symmetry.
    apply take_zip_with; [exact Hf0 | rewrite Hf0; exact Hidx]. }
  rewrite E1.
  assert (E2 : np.zip_with Qminus (np.take 0 weights indices_sorted)
                 frac_weights = neg_frac_weights).
  { unfold neg_frac_weights, neg_frac_weights0, frac_weights. symmetry.
    apply take_zip_with; [symmetry; exact Hfw0 | exact Hidx]. }
  rewrite E2. reflexivity.
Qed.

Lemma integral_sorted : StronglySorted Z.le integral.
Proof. apply argsort_sorted. Qed.

Lemma integral_in (u : Z) : In u integral <-> In u integral0.
Proof.
  assert (Hp : Permutation integral integral0)
    by (apply take_perm, argsort_perm).
  split; apply Permutation_in; [exact Hp | apply Permutation_sym, Hp].
Qed.

Lemma unique_integrals_spec (u : Z) :
  In u unique_integrals <-> In u integral0 /\ (0 <= u <= Z.of_nat M)%Z.
Proof.
  unfold unique_integrals.
  rewrite filter_In, unique_in, integral_in, in_filter_spec. tauto.
Qed.

Lemma unique_integrals_NoDup : NoDup unique_integrals.
Proof.
  apply filter_NoDup, increasing_NoDup, unique_increasing.
Qed.

Lemma lengths_sorted :
  length integral = length neg_frac_weights
  /\ length integral = length frac_weights.
Proof.
  unfold integral, neg_frac_weights, frac_weights.
  rewrite !take_length. split; reflexivity.
Qed.

Lemma lengths_original :
  length integral0 = length neg_frac_weights0
  /\ length integral0 = length frac_weights0.
Proof.
  assert (Hfw0 : length frac_weights0 = length weights).
  { unfold frac_weights0. rewrite zip_with_length;
      unfold fractional0; rewrite length_map; exact same_length. }
  unfold neg_frac_weights0. rewrite zip_with_length by (symmetry; exact Hfw0).
  rewrite Hfw0. unfold integral0. rewrite length_map.
  split; exact same_length.
Qed.

(** The sum of a run in the sorted arrays is the sum over the samples of
    that bucket in the original order. *)
Lemma low_sum_original (u : Z) :
  low_sum integral neg_frac_weights u == sum_where u integral0 neg_frac_weights0.
Proof.
  unfold low_sum. rewrite run_sum.
  - apply sum_where_take; [apply lengths_original | apply argsort_perm].
  - apply integral_sorted.
  - apply lengths_sorted.
Qed.

Lemma high_sum_original (u : Z) :
  high_sum integral frac_weights u == sum_where u integral0 frac_weights0.
Proof.
  unfold high_sum. rewrite run_sum.
  - apply sum_where_take; [apply lengths_original | apply argsort_perm].
  - apply integral_sorted.
  - apply lengths_sorted.
Qed.

Lemma sum_map_zero {A : Type} (l : list A) :
  np.sum (map (fun _ => 0) l) == 0.
Proof.
  induction l as [|x l IH]; simpl; [reflexivity|]. rewrite IH. ring.
Qed.

Lemma sum_single_in (f : Z -> Q) (k : Z) (U : list Z) :
  NoDup U -> In k U ->
  np.sum (map (fun u => if (u =? k)%Z then f u else 0) U) == f k.
Proof.
  induction 1 as [|x U Hx Hn IH]; intros Hin; simpl; [destruct Hin|].
  destruct (Z.eqb_spec x k) as [->|Hne].
  - rewrite (sum_map_ext _ (fun _ => 0)).
    + rewrite sum_map_zero. ring.
    + intros y Hy. destruct (Z.eqb_spec y k); [subst; tauto | reflexivity].
  - destruct Hin as [Hin|Hin]; [congruence|]. rewrite IH by exact Hin. ring.
Qed.

Lemma sum_single_out (f : Z -> Q) (k : Z) (U : list Z) :
  ~ In k U ->
  np.sum (map (fun u => if (u =? k)%Z then f u else 0) U) == 0.
Proof.
  induction U as [|x U IH]; intros Hin; simpl; [reflexivity|].
  destruct (Z.eqb_spec x k) as [->|Hne].
  - exfalso. apply Hin. left. reflexivity.
  - rewrite IH; [ring|]. intros H. apply Hin. right. exact H.
Qed.

(** The contents of a slot after the loop, bucket by bucket. *)
Lemma loop_total (j : nat) :
  (j <= M)%nat ->
  np.sum (map (increment integral neg_frac_weights frac_weights j)
              unique_integrals)
  == sum_where (Z.of_nat j) integral0 neg_frac_weights0
     + (if (0 <=? Z.of_nat j - 1)%Z
        then sum_where (Z.of_nat j - 1) integral0 frac_weights0 else 0).
Proof.
  intros Hj. unfold increment. rewrite sum_map_plus.
  apply Qplus_comp.
  - destruct (in_dec Z.eq_dec (Z.of_nat j) unique_integrals) as [Hin|Hout].
    + rewrite (sum_single_in (low_sum integral neg_frac_weights))
        by (try apply unique_integrals_NoDup; exact Hin).
      apply low_sum_original.
    + rewrite (sum_single_out (low_sum integral neg_frac_weights))
        by exact Hout.
      rewrite sum_where_absent; [reflexivity|].
      intros Hin. apply Hout. apply unique_integrals_spec. split; [exact Hin|lia].
  - rewrite (sum_map_ext _
      (fun u => if (u =? Z.of_nat j - 1)%Z
                then high_sum integral frac_weights u else 0)).
    2:{ intros u _.
        destruct (Z.eqb_spec (u + 1) (Z.of_nat j)),
                 (Z.eqb_spec u (Z.of_nat j - 1)); try reflexivity; lia. }
    destruct (in_dec Z.eq_dec (Z.of_nat j - 1)%Z unique_integrals) as [Hin|Hout].
    + rewrite (sum_single_in (high_sum integral frac_weights))
        by (try apply unique_integrals_NoDup; exact Hin).
      apply unique_integrals_spec in Hin. destruct Hin as [_ Hr].
      replace (0 <=? Z.of_nat j - 1)%Z with true
        by (symmetry; apply Z.leb_le; lia).
      apply high_sum_original.
    + rewrite (sum_single_out (high_sum integral frac_weights))
        by exact Hout.
      destruct (0 <=? Z.of_nat j - 1)%Z eqn:E; [|reflexivity].
      apply Z.leb_le in E.
      rewrite sum_where_absent; [reflexivity|].
      intros Hin. apply Hout. apply unique_integrals_spec. split; [exact Hin|lia].
Qed.

Lemma shares_sum (j : Z) :
  sum_where j integral0 neg_frac_weights0
  + (if (0 <=? j - 1)%Z then sum_where (j - 1) integral0 frac_weights0 else 0)
  == scatter j transformed_data weights.
Proof.
  unfold neg_frac_weights0, frac_weights0, integral0, fractional0, scatter.
  clear. revert weights.
  induction transformed_data as [|t ts IH]; intros [|w ws]; simpl;
    try (destruct (0 <=? j - 1)%Z; ring).
  rewrite <- IH. unfold share.
  destruct (Z.eqb_spec (integral_of t) j) as [E1|E1];
    destruct (Z.eqb_spec (integral_of t) (j - 1)) as [E2|E2];
    destruct (Z.eqb_spec (integral_of t + 1) j) as [E3|E3];
    destruct (Z.leb_spec 0 (integral_of t)) as [E4|E4];
    destruct (Z.leb_spec 0 (j - 1)) as [E5|E5];
    simpl; try lia; ring.
Qed.

(** When no sample falls in the bucket [M], the loop runs to its end and
    slot [j] holds the shares of all samples. *)
Theorem bin_transformed_scatter :
  Forall (fun t => integral_of t <> Z.of_nat M) transformed_data ->
  exists result,
    bin_transformed transformed_data weights M = Return result
    /\ length result = (M + 1)%nat
    /\ forall j, (j <= M)%nat ->
         nth j result 0 == scatter (Z.of_nat j) transformed_data weights.
Proof.
  intros Hno. rewrite bin_transformed_loop.
  destruct (accumulate_in_range integral neg_frac_weights frac_weights
              unique_integrals (np.zeros (M + 1))) as [r [Hr [Hl Hn]]].
  - apply Forall_forall. intros u Hu.
    apply unique_integrals_spec in Hu. destruct Hu as [Hin Hr].
    unfold np.zeros. rewrite repeat_length.
    unfold integral0 in Hin. apply in_map_iff in Hin.
    destruct Hin as [t [Et Ht]].
    rewrite Forall_forall in Hno. specialize (Hno t Ht). lia.
  - exists r. split; [exact Hr|]. split.
    + rewrite Hl. unfold np.zeros. apply repeat_length.
    + intros j Hj. rewrite Hn, loop_total by exact Hj.
      rewrite shares_sum.
      assert (Hz : nth j (np.zeros (M + 1)) 0 = 0).
      { unfold np.zeros. apply nth_repeat. }
      rewrite Hz. ring.
Qed.

(** A sample in the bucket [M] passes the filter [<= len(grid_points)] and
    makes the loop write past the end of the accumulator. *)
Theorem bin_transformed_overflow :
  Exists (fun t => integral_of t = Z.of_nat M) transformed_data ->
  bin_transformed transformed_data weights M = Raise IndexError.
Proof.
  intros Hex. rewrite bin_transformed_loop.
  apply accumulate_overflow.
  - apply Forall_forall. intros u Hu.
    apply unique_integrals_spec in Hu.
    unfold np.zeros. rewrite repeat_length. lia.
  - unfold np.zeros. rewrite repeat_length.
    apply unique_integrals_spec. split; [|lia].
    apply Exists_exists in Hex. destruct Hex as [t [Ht Et]].
    unfold integral0. apply in_map_iff. exists t. split; [|exact Ht].
    rewrite Et. lia.
Qed.

End Transformed.

(** ** The decomposition by [np.modf] *)

Lemma integral_of_trunc (t : Q) : integral_of t = np.trunc t.
Proof.
  unfold integral_of, np.astype_int, np.modf, np.trunc. simpl.
  apply Z.quot_1_r.
Qed.

Lemma fractional_integral (t : Q) :
  fractional_of t = t - inject_Z (integral_of t).
Proof. rewrite integral_of_trunc. reflexivity. Qed.

Lemma integral_of_nonneg (t : Q) : 0 <= t -> integral_of t = Qfloor t.
Proof.
  rewrite integral_of_trunc.
  destruct t as [n d]. unfold Qle, np.trunc. simpl. intros H.
  apply Z.quot_div_nonneg; lia.
Qed.

Lemma integral_of_nonpos (t : Q) : t <= 0 -> integral_of t = Qceiling t.
Proof.
  rewrite integral_of_trunc.
  destruct t as [n d]. unfold Qle, np.trunc, Qceiling. simpl. intros H.
  rewrite <- (Z.opp_involutive n) at 1.
  rewrite Z.quot_opp_l by lia.
  rewrite Z.quot_div_nonneg by lia. reflexivity.
Qed.

Lemma fractional_of_nonneg (t : Q) :
  0 <= t -> 0 <= fractional_of t /\ fractional_of t < 1.
Proof.
  intros H. rewrite fractional_integral, (integral_of_nonneg t H).
  pose proof (Qfloor_le t) as Hl. pose proof (Qlt_floor t) as Hu.
  rewrite inject_Z_plus in Hu. change (inject_Z 1) with 1 in Hu.
  split; lra.
Qed.

Lemma fractional_of_nonpos (t : Q) :
  t <= 0 -> -1 < fractional_of t /\ fractional_of t <= 0.
Proof.
  intros H. rewrite fractional_integral, (integral_of_nonpos t H).
  unfold Qceiling.
  pose proof (Qfloor_le (- t)) as Hl. pose proof (Qlt_floor (- t)) as Hu.
  rewrite inject_Z_plus in Hu. change (inject_Z 1) with 1 in Hu.
  rewrite inject_Z_opp. split; lra.
Qed.

Lemma integral_of_nonneg_bounds (t : Q) :
  0 <= t -> (0 <= integral_of t)%Z /\ inject_Z (integral_of t) <= t.
Proof.
  intros H. rewrite (integral_of_nonneg t H). split.
  - rewrite <- (Qfloor_Z 0). apply Qfloor_resp_le. exact H.
  - apply Qfloor_le.
Qed.


(** ** [linbin_numpy] on finite arguments *)

Lemma linbin_numpy_finite (data grid_points : list Q) (weights : option (list Q)) :
  linbin_numpy (finite data) (finite grid_points) (finite_opt weights)
  = (_ <- assert_equidistant grid_points ;;
     let ws := normalised (weights_or_ones data weights) in
     if negb (length data =? length ws)%nat
     then Raise (ValueError msg_length)
     else
       transformed_data <- transform data grid_points ;;
       result <- bin_transformed transformed_data ws (length grid_points) ;;
       Return (removelast result)).
Proof.
  unfold linbin_numpy. rewrite !asarray_chkfinite_finite. simpl.
  destruct (assert_equidistant grid_points) as [[]|e]; simpl; [|reflexivity].
  destruct weights as [w|]; simpl.
  - rewrite asarray_chkfinite_finite. reflexivity.
  - change (map Finite (np.ones_like data)) with (finite (np.ones_like data)).
    rewrite asarray_chkfinite_finite. reflexivity.
Qed.

Lemma normalised_length (weights : list Q) :
  length (normalised weights) = length weights.
Proof. apply length_map. Qed.

Lemma weights_or_ones_length (data : list Q) (weights : option (list Q)) :
  length (weights_or_ones data weights)
  = match weights with Some w => length w | None => length data end.
Proof. destruct weights; simpl; [reflexivity | apply length_map]. Qed.

Lemma assert_equidistant_two (grid_points : list Q) :
  assert_equidistant grid_points = Return tt -> (2 <= length grid_points)%nat.
Proof.
  destruct grid_points as [|x [|y g]]; simpl; try discriminate.
  intros _. lia.
Qed.

Lemma transform_coordinates (data grid_points : list Q) (gmin gmax : Q) :
  np.min grid_points = Return gmin -> np.max grid_points = Return gmax ->
  transform data grid_points
  = Return (map (coordinate gmin gmax (length grid_points)) data).
Proof.
  intros Hmin Hmax. unfold transform. rewrite Hmin, Hmax. reflexivity.
Qed.

Lemma removelast_length {A : Type} (l : list A) :
  length (removelast l) = (length l - 1)%nat.
Proof.
  rewrite removelast_firstn_len, length_firstn. lia.
Qed.

Lemma removelast_nth {A : Type} (l : list A) (d : A) (j : nat) :
  (j + 1 < length l)%nat -> nth j (removelast l) d = nth j l d.
Proof.
  intros H. rewrite removelast_firstn_len, nth_firstn.
  destruct (Nat.ltb_spec j (Nat.pred (length l))); [reflexivity | lia].
Qed.

Section Numpy.

Variables (data grid_points : list Q) (weights : option (list Q)).
Variables (gmin gmax : Q).

Let M : nat := length grid_points.
Let ws : list Q := normalised (weights_or_ones data weights).
Let ts : list Q := map (coordinate gmin gmax M) data.

Hypothesis grid_ok : assert_equidistant grid_points = Return tt.
Hypothesis grid_min : np.min grid_points = Return gmin.
Hypothesis grid_max : np.max grid_points = Return gmax.
Hypothesis weights_ok : length data = length (weights_or_ones data weights).

Lemma linbin_numpy_bin :
  linbin_numpy (finite data) (finite grid_points) (finite_opt weights)
  = (result <- bin_transformed ts ws M ;; Return (removelast result)).
Proof.
  rewrite linbin_numpy_finite, grid_ok. simpl.
  rewrite normalised_length, <- weights_ok, Nat.eqb_refl. simpl.
  rewrite (transform_coordinates data grid_points gmin gmax grid_min grid_max).
  reflexivity.
Qed.

(** Without a sample in the bucket [M], [linbin_numpy] returns [M] cells,
    and cell [j] is the sum of the shares of all samples. *)
Lemma numpy_cells :
  Forall (fun t => integral_of t <> Z.of_nat M) ts ->
  exists out,
    linbin_numpy (finite data) (finite grid_points) (finite_opt weights)
    = Return out
    /\ length out = M
    /\ forall j, (j < M)%nat -> nth j out 0 == scatter (Z.of_nat j) ts ws.
Proof.
  intros Hno. rewrite linbin_numpy_bin.
  assert (Hlen : length ts = length ws).
  { unfold ts, ws. rewrite length_map, normalised_length. exact weights_ok. }
  destruct (bin_transformed_scatter ts ws M Hlen Hno) as [r [Hr [Hl Hn]]].
  rewrite Hr. simpl. exists (removelast r). split; [reflexivity|]. split.
  - rewrite removelast_length, Hl. lia.
  - intros j Hj. rewrite removelast_nth by lia. apply Hn. lia.
Qed.

(** With a sample in the bucket [M], [linbin_numpy] raises [IndexError]. *)
Lemma numpy_bucket_raises :
  Exists (fun t => integral_of t = Z.of_nat M) ts ->
  linbin_numpy (finite data) (finite grid_points) (finite_opt weights)
  = Raise IndexError.
Proof.
  intros Hex. rewrite linbin_numpy_bin.
  assert (Hlen : length ts = length ws).
  { unfold ts, ws. rewrite length_map, normalised_length. exact weights_ok. }
  rewrite (bin_transformed_overflow ts ws M Hlen Hex). reflexivity.
Qed.

End Numpy.

(** ** Samples inside the grid range *)

Section Range.

Variables (gmin gmax : Q) (M : nat).
Hypothesis grid_wide : gmin < gmax.
Hypothesis grid_two : (2 <= M)%nat.

Lemma intervals_pos : 0 < inject_Z (Z.of_nat M - 1).
Proof.
  change 0 with (inject_Z 0). rewrite <- Zlt_Qlt. lia.
Qed.

Lemma spacing_pos : 0 < spacing gmin gmax M.
Proof.
  unfold spacing. apply Qlt_shift_div_l; [apply intervals_pos | lra].
Qed.

Lemma spacing_intervals :
  inject_Z (Z.of_nat M - 1) * spacing gmin gmax M == gmax - gmin.
Proof.
  unfold spacing. field. pose proof intervals_pos. lra.
Qed.

Lemma coordinate_range (d : Q) :
  gmin <= d <= gmax ->
  0 <= coordinate gmin gmax M d <= inject_Z (Z.of_nat M - 1).
Proof.
  intros [Hl Hu]. unfold coordinate. pose proof spacing_pos as Hp. split.
  - apply Qle_shift_div_l; [exact Hp | lra].
  - apply Qle_shift_div_r; [exact Hp|]. rewrite spacing_intervals. lra.
Qed.

Lemma coordinate_below (d : Q) : d < gmin -> coordinate gmin gmax M d < 0.
Proof.
  intros H. unfold coordinate. pose proof spacing_pos as Hp.
  apply Qlt_shift_div_r; [exact Hp | lra].
Qed.

Lemma coordinate_above (d : Q) :
  gmax < d -> inject_Z (Z.of_nat M - 1) < coordinate gmin gmax M d.
Proof.
  intros H. unfold coordinate. pose proof spacing_pos as Hp.
  apply Qlt_shift_div_l; [exact Hp|]. rewrite spacing_intervals. lra.
Qed.

Lemma coordinate_last (d : Q) :
  d == gmax -> coordinate gmin gmax M d == inject_Z (Z.of_nat M - 1).
Proof.
  intros H. unfold coordinate. pose proof spacing_pos as Hp.
  apply Qmult_inj_r with (z := spacing gmin gmax M); [lra|].
  rewrite spacing_intervals.
  unfold Qdiv. rewrite <- Qmult_assoc, (Qmult_comm (/ _)), Qmult_inv_r by lra.
  rewrite H. ring.
Qed.

(** A sample inside the range falls in a bucket [0 .. M - 1]; in the last
    one only when it sits on the last grid point, with nothing left over. *)
Lemma in_range_bucket (d : Q) :
  gmin <= d <= gmax ->
  let t := coordinate gmin gmax M d in
  (0 <= integral_of t <= Z.of_nat M - 1)%Z
  /\ 0 <= fractional_of t /\ fractional_of t < 1
  /\ (integral_of t = (Z.of_nat M - 1)%Z -> fractional_of t == 0).
Proof.
  intros Hd t. destruct (coordinate_range d Hd) as [H0 H1]. fold t in H0, H1.
  destruct (integral_of_nonneg_bounds t H0) as [Hi0 Hil].
  destruct (fractional_of_nonneg t H0) as [Hf0 Hf1].
  assert (Hup : (integral_of t <= Z.of_nat M - 1)%Z).
  { rewrite Zle_Qle. lra. }
  repeat split; try assumption.
  intros E. rewrite fractional_integral in *. rewrite E in *. lra.
Qed.

End Range.

(** ** Row sums of the shares *)

Lemma sum_indicator (a : Q) (i : Z) (len : nat) : forall start : nat,
  np.sum (map (fun j => if (i =? Z.of_nat j)%Z then a else 0) (seq start len))
  == if ((Z.of_nat start <=? i) && (i <? Z.of_nat (start + len)))%Z
     then a else 0.
Proof.
  induction len as [|len IH]; intros start; simpl.
  - destruct (Z.leb_spec (Z.of_nat start) i), (Z.ltb_spec i (Z.of_nat (start + 0)));
      simpl; try reflexivity; lia.
  - rewrite IH.
    destruct (Z.eqb_spec i (Z.of_nat start));
      destruct (Z.leb_spec (Z.of_nat (S start)) i);
      destruct (Z.ltb_spec i (Z.of_nat (S start + len)));
      destruct (Z.leb_spec (Z.of_nat start) i);
      destruct (Z.ltb_spec i (Z.of_nat (start + S len)));
      simpl; try lia; ring.
Qed.

Lemma sum_exchange {J : Type} (f : J -> Q -> Q -> Q) (js : list J) :
  forall ts ws : list Q,
  np.sum (map (fun j => np.sum (np.zip_with (f j) ts ws)) js)
  == np.sum (np.zip_with (fun t w => np.sum (map (fun j => f j t w) js)) ts ws).
Proof.
  induction ts as [|t ts IH]; intros [|w ws]; simpl;
    try apply sum_map_zero.
  rewrite sum_map_plus, IH. reflexivity.
Qed.

Lemma sum_zip_with_ext (P : Q -> Prop) (f g : Q -> Q -> Q) (ts : list Q) :
  (forall t w, P t -> f t w == g t w) ->
  Forall P ts ->
  forall ws, np.sum (np.zip_with f ts ws) == np.sum (np.zip_with g ts ws).
Proof.
  intros Hfg. induction 1 as [|t ts Ht _ IH]; intros [|w ws]; simpl;
    try reflexivity.
  rewrite (Hfg t w Ht), IH. reflexivity.
Qed.

Lemma sum_zip_with_snd (ts ws : list Q) :
  length ts = length ws ->
  np.sum (np.zip_with (fun _ w => w) ts ws) == np.sum ws.
Proof.
  revert ws. induction ts as [|t ts IH]; intros [|w ws] H; simpl in *;
    try reflexivity; try discriminate.
  rewrite IH by congruence. reflexivity.
Qed.

Lemma sum_zip_with_nonneg (f : Q -> Q -> Q) (ts ws : list Q) :
  Forall (fun t => forall w, In w ws -> 0 <= f t w) ts ->
  0 <= np.sum (np.zip_with f ts ws).
Proof.
  revert ws. induction ts as [|t ts IH]; intros [|w ws] H; simpl;
    try apply Qle_refl.
  inversion H as [|? ? Ht Hts]; subst.
  assert (H1 : 0 <= f t w) by (apply Ht; left; reflexivity).
  assert (H2 : 0 <= np.sum (np.zip_with f ts ws)).
  { apply IH. eapply Forall_impl; [|exact Hts].
    simpl. intros t' Ht' w' Hw'. apply Ht'. right. exact Hw'. }
  lra.
Qed.

Lemma share_nonneg (j : Z) (t w : Q) :
  0 <= w -> 0 <= fractional_of t -> fractional_of t <= 1 -> 0 <= share j t w.
Proof.
  intros Hw Hf0 Hf1. unfold share.
  assert (H1 : 0 <= fractional_of t * w) by (apply Qmult_le_0_compat; assumption).
  assert (H2 : 0 <= w - fractional_of t * w).
  { setoid_replace (w - fractional_of t * w) with ((1 - fractional_of t) * w) by ring.
    apply Qmult_le_0_compat; [lra | assumption]. }
  destruct (integral_of t =? j)%Z,
           ((0 <=? integral_of t) && (integral_of t + 1 =? j))%Z; lra.
Qed.

(** Over the cells [0 .. M - 1], a sample whose bucket is one of them and
    that leaves nothing for the slot [M] spends exactly its weight. *)
Lemma share_row_sum (M : nat) (t w : Q) :
  (0 <= integral_of t <= Z.of_nat M - 1)%Z ->
  (integral_of t = (Z.of_nat M - 1)%Z -> fractional_of t == 0) ->
  np.sum (map (fun j => share (Z.of_nat j) t w) (seq 0 M)) == w.
Proof.
  intros Hi Hlast. unfold share. rewrite sum_map_plus.
  rewrite (sum_indicator (w - fractional_of t * w) (integral_of t) M 0).
  rewrite (sum_map_ext _
    (fun j => if (integral_of t + 1 =? Z.of_nat j)%Z
              then fractional_of t * w else 0)).
  2:{ intros j _. destruct (Z.leb_spec 0 (integral_of t)); [reflexivity | lia]. }
  rewrite (sum_indicator (fractional_of t * w) (integral_of t + 1) M 0).
  simpl Nat.add.
  destruct (Z.leb_spec (Z.of_nat 0) (integral_of t));
    destruct (Z.ltb_spec (integral_of t) (Z.of_nat M));
    destruct (Z.leb_spec (Z.of_nat 0) (integral_of t + 1));
    destruct (Z.ltb_spec (integral_of t + 1) (Z.of_nat M));
    simpl; try lia; try ring.
  rewrite Hlast by lia. ring.
Qed.

Lemma sum_map_div (c : Q) (l : list Q) :
  ~ c == 0 -> np.sum (map (fun w => w / c) l) == np.sum l / c.
Proof.
  intros Hc. induction l as [|x l IH]; simpl.
  - field. exact Hc.
  - rewrite IH. field. exact Hc.
Qed.

Lemma sum_normalised (weights : list Q) :
  ~ np.sum weights == 0 -> np.sum (normalised weights) == 1.
Proof.
  intros Hs. unfold normalised. rewrite sum_map_div by exact Hs.
  field. exact Hs.
Qed.

Lemma normalised_nonneg (weights : list Q) :
  Forall (fun w => 0 <= w) weights ->
  Forall (fun w => 0 <= w) (normalised weights).
Proof.
  intros H. unfold normalised.
  assert (Hs : 0 <= np.sum weights).
  { induction H as [|x l Hx _ IH]; simpl; lra. }
  apply Forall_forall. intros y Hy. apply in_map_iff in Hy.
  destruct Hy as [x [<- Hx]]. rewrite Forall_forall in H. specialize (H x Hx).
  destruct (Qeq_dec (np.sum weights) 0) as [E|E].
  - setoid_replace (x / np.sum weights) with 0; [apply Qle_refl|].
    rewrite E. unfold Qdiv. change (/ 0) with 0. ring.
  - apply Qle_shift_div_l; lra.
Qed.

Lemma sum_ones_like {A : Type} (l : list A) :
  np.sum (np.ones_like l) == inject_Z (Z.of_nat (length l)).
Proof.
  unfold np.ones_like. induction l as [|x l IH].
  - reflexivity.
  - cbn [map np.sum fold_right length]. fold (np.sum (map (fun _ : A => 1) l)).
    rewrite IH, Nat2Z.inj_succ, <- Z.add_1_l, inject_Z_plus. reflexivity.
Qed.

Lemma sum_zip_with_le (f g : Q -> Q -> Q) (ts ws : list Q) :
  Forall (fun t => forall w, In w ws -> f t w <= g t w) ts ->
  np.sum (np.zip_with f ts ws) <= np.sum (np.zip_with g ts ws).
Proof.
  revert ws. induction ts as [|t ts IH]; intros [|w ws] H; simpl;
    try apply Qle_refl.
  inversion H as [|? ? Ht Hts]; subst.
  assert (H1 : f t w <= g t w) by (apply Ht; left; reflexivity).
  assert (H2 : np.sum (np.zip_with f ts ws) <= np.sum (np.zip_with g ts ws)).
  { apply IH. eapply Forall_impl; [|exact Hts].
    simpl. intros t' Ht' w' Hw'. apply Ht'. right. exact Hw'. }
  lra.
Qed.

Lemma share_row_sum_le (M : nat) (t w : Q) :
  0 <= w -> 0 <= t ->
  np.sum (map (fun j => share (Z.of_nat j) t w) (seq 0 M)) <= w.
Proof.
  intros Hw Ht.
  destruct (integral_of_nonneg_bounds t Ht) as [Hi _].
  destruct (fractional_of_nonneg t Ht) as [Hf0 Hf1].
  assert (H1 : 0 <= fractional_of t * w) by (apply Qmult_le_0_compat; assumption).
  assert (H2 : 0 <= w - fractional_of t * w).
  { setoid_replace (w - fractional_of t * w) with ((1 - fractional_of t) * w) by ring.
    apply Qmult_le_0_compat; [lra | assumption]. }
  unfold share. rewrite sum_map_plus.
  rewrite (sum_indicator (w - fractional_of t * w) (integral_of t) M 0).
  rewrite (sum_map_ext _
    (fun j => if (integral_of t + 1 =? Z.of_nat j)%Z
              then fractional_of t * w else 0)).
  2:{ intros j _. destruct (Z.leb_spec 0 (integral_of t)); [reflexivity | lia]. }
  rewrite (sum_indicator (fractional_of t * w) (integral_of t + 1) M 0).
  destruct ((Z.of_nat 0 <=? integral_of t) && (integral_of t <? Z.of_nat (0 + M)))%Z,
           ((Z.of_nat 0 <=? integral_of t + 1)
            && (integral_of t + 1 <? Z.of_nat (0 + M)))%Z; lra.
Qed.

Lemma Forall_nth_nonneg (l : list Q) :
  (forall j, (j < length l)%nat -> 0 <= nth j l 0) ->
  Forall (fun x => 0 <= x) l.
Proof.
  intros H. apply Forall_forall. intros x Hx.
  destruct (In_nth l x 0 Hx) as [j [Hj <-]]. apply H. exact Hj.
Qed.

Lemma sum_by_index (l : list Q) :
  np.sum l = np.sum (map (fun j => nth j l 0) (seq 0 (length l))).
Proof. rewrite map_nth_seq. reflexivity. Qed.

(** ** The mass vector of [linbin_numpy] *)

Section Mass.

Variables (data grid_points : list Q) (weights : option (list Q)).
Variables (gmin gmax : Q).

Let M : nat := length grid_points.
Let ws : list Q := normalised (weights_or_ones data weights).
Let ts : list Q := map (coordinate gmin gmax M) data.

Hypothesis grid_ok : assert_equidistant grid_points = Return tt.
Hypothesis grid_min : np.min grid_points = Return gmin.
Hypothesis grid_max : np.max grid_points = Return gmax.
Hypothesis grid_wide : gmin < gmax.
Hypothesis weights_ok : length data = length (weights_or_ones data weights).
Hypothesis weights_nonneg :
  Forall (fun w => 0 <= w) (weights_or_ones data weights).
Hypothesis weights_sum : ~ np.sum (weights_or_ones data weights) == 0.

Lemma ws_nonneg (w : Q) : In w ws -> 0 <= w.
Proof.
  intros Hw. pose proof (normalised_nonneg _ weights_nonneg) as H.
  rewrite Forall_forall in H. apply H. exact Hw.
Qed.

Lemma ts_ws_length : length ts = length ws.
Proof.
  unfold ts, ws. rewrite length_map, normalised_length. exact weights_ok.
Qed.

Lemma grid_two : (2 <= M)%nat.
Proof. apply assert_equidistant_two. exact grid_ok. Qed.

(** Samples from [gmin] upward that miss the bucket [M]: the result has [M]
    non-negative cells that sum to at most one. *)
Lemma numpy_mass_bounded :
  Forall (fun d => gmin <= d) data ->
  Forall (fun t => integral_of t <> Z.of_nat M) ts ->
  exists out,
    linbin_numpy (finite data) (finite grid_points) (finite_opt weights)
    = Return out
    /\ length out = M
    /\ Forall (fun x => 0 <= x) out
    /\ np.sum out <= 1.
Proof.
  intros Hlow Hno.
  destruct (numpy_cells data grid_points weights gmin gmax
              grid_ok grid_min grid_max weights_ok Hno) as [out [Ho [Hl Hn]]].
  fold M ts ws in Hl, Hn.
  assert (Hts : Forall (fun t => 0 <= t) ts).
  { unfold ts. apply Forall_forall. intros t Ht. apply in_map_iff in Ht.
    destruct Ht as [d [<- Hd]]. rewrite Forall_forall in Hlow.
    specialize (Hlow d Hd). unfold coordinate.
    apply Qle_shift_div_l; [apply spacing_pos; [exact grid_wide | exact grid_two] | lra]. }
  exists out. split; [exact Ho|]. split; [exact Hl|]. split.
  - apply Forall_nth_nonneg. intros j Hj. rewrite Hn by lia.
    unfold scatter. apply sum_zip_with_nonneg.
    eapply Forall_impl; [|exact Hts]. simpl. intros t Ht w Hw.
    destruct (fractional_of_nonneg t Ht) as [Hf0 Hf1].
    apply share_nonneg; [apply ws_nonneg; exact Hw | exact Hf0 | lra].
  - rewrite sum_by_index, Hl.
    rewrite (sum_map_ext _ (fun j => scatter (Z.of_nat j) ts ws)).
    2:{ intros j Hj. apply in_seq in Hj. apply Hn. lia. }
    unfold scatter. rewrite (sum_exchange (fun j => share (Z.of_nat j))).
    rewrite <- (sum_normalised _ weights_sum). fold ws.
    rewrite <- (sum_zip_with_snd ts ws ts_ws_length).
    apply sum_zip_with_le.
    eapply Forall_impl; [|exact Hts]. simpl. intros t Ht w Hw.
    apply share_row_sum_le; [apply ws_nonneg; exact Hw | exact Ht].
Qed.

(** Samples inside [[gmin, gmax]]: no error, [M] non-negative cells, and the
    whole mass. *)
Lemma numpy_mass_in_range :
  Forall (fun d => gmin <= d <= gmax) data ->
  exists out,
    linbin_numpy (finite data) (finite grid_points) (finite_opt weights)
    = Return out
    /\ length out = M
    /\ Forall (fun x => 0 <= x) out
    /\ np.sum out == 1.
Proof.
  intros Hin.
  assert (Hb : Forall (fun t =>
             (0 <= integral_of t <= Z.of_nat M - 1)%Z
             /\ (integral_of t = (Z.of_nat M - 1)%Z -> fractional_of t == 0)) ts).
  { unfold ts. apply Forall_forall. intros t Ht. apply in_map_iff in Ht.
    destruct Ht as [d [<- Hd]]. rewrite Forall_forall in Hin.
    destruct (in_range_bucket gmin gmax M grid_wide grid_two d (Hin d Hd))
      as [H1 [_ [_ H2]]].
    split; assumption. }
  destruct numpy_mass_bounded as [out [Ho [Hl [Hp _]]]].
  { eapply Forall_impl; [|exact Hin]. simpl. intros d Hd. apply Hd. }
  { eapply Forall_impl; [|exact Hb]. simpl. intros t Ht. lia. }
  exists out. split; [exact Ho|]. split; [exact Hl|]. split; [exact Hp|].
  destruct (numpy_cells data grid_points weights gmin gmax
              grid_ok grid_min grid_max weights_ok) as [out' [Ho' [_ Hn]]].
  { eapply Forall_impl; [|exact Hb]. simpl. intros t Ht. lia. }
  fold M ts ws in Hn. rewrite Ho in Ho'. injection Ho' as <-.
  rewrite sum_by_index, Hl.
  rewrite (sum_map_ext _ (fun j => scatter (Z.of_nat j) ts ws)).
  2:{ intros j Hj. apply in_seq in Hj. apply Hn. lia. }
  unfold scatter. rewrite (sum_exchange (fun j => share (Z.of_nat j))).
  rewrite <- (sum_normalised _ weights_sum). fold ws.
  rewrite <- (sum_zip_with_snd ts ws ts_ws_length).
  apply (sum_zip_with_ext _ _ _ ts) with (2 := Hb).
  intros t w [H1 H2]. apply share_row_sum; assumption.
Qed.

End Mass.

(** Samples inside [[gmin, gmax]]: [linbin_numpy] raises nothing and returns
    [M] non-negative cells that sum to one. *)
Theorem linbin_numpy_in_range (data grid_points : list Q)
    (weights : option (list Q)) (gmin gmax : Q) :
  assert_equidistant grid_points = Return tt ->
  np.min grid_points = Return gmin ->
  np.max grid_points = Return gmax ->
  gmin < gmax ->
  length data = length (weights_or_ones data weights) ->
  Forall (fun w => 0 <= w) (weights_or_ones data weights) ->
  ~ np.sum (weights_or_ones data weights) == 0 ->
  Forall (fun d => gmin <= d <= gmax) data ->
  exists out,
    linbin_numpy (finite data) (finite grid_points) (finite_opt weights)
    = Return out
    /\ length out = length grid_points
    /\ Forall (fun x => 0 <= x) out
    /\ np.sum out == 1.
Proof. apply numpy_mass_in_range. Qed.

(** ** Grid validation *)

Lemma isclose_spec (a b : Q) :
  np.isclose a b = true <-> Qabs (a - b) <= np.atol + np.rtol * Qabs b.
Proof. unfold np.isclose. apply Qle_bool_iff. Qed.

Lemma allclose_first (d0 : Q) (diffs : list Q) :
  np.allclose (map (fun one => one * d0) (np.ones_like diffs)) diffs = true
  <-> Forall (fun d => Qabs (d0 - d) <= np.atol + np.rtol * Qabs d) diffs.
Proof.
  unfold np.allclose, np.ones_like. rewrite map_map.
  induction diffs as [|d diffs IH]; simpl.
  - split; [constructor | reflexivity].
  - rewrite andb_true_iff, IH, isclose_spec.
    assert (E : 1 * d0 - d == d0 - d) by ring.
    rewrite E. split.
    + intros [H1 H2]. constructor; assumption.
    + intros H. inversion H; subst. split; assumption.
Qed.

Lemma assert_equidistant_short (grid_points : list Q) :
  (length grid_points < 2)%nat -> assert_equidistant grid_points = Raise IndexError.
Proof.
  destruct grid_points as [|x [|y g]]; simpl; try reflexivity. lia.
Qed.

Lemma assert_equidistant_pass (grid_points : list Q) :
  (2 <= length grid_points)%nat -> all_close_to_first grid_points ->
  assert_equidistant grid_points = Return tt.
Proof.
  unfold assert_equidistant, all_close_to_first.
  destruct grid_points as [|x [|y g]]; simpl; try lia. intros _ H.
  apply (allclose_first (y - x) ((y - x) :: np.diff (y :: g))) in H.
  simpl in H. rewrite H. reflexivity.
Qed.

Lemma assert_equidistant_fail (grid_points : list Q) :
  (2 <= length grid_points)%nat -> ~ all_close_to_first grid_points ->
  assert_equidistant grid_points = Raise AssertionError.
Proof.
  unfold assert_equidistant, all_close_to_first.
  destruct grid_points as [|x [|y g]]; simpl; try lia. intros _ H.
  pose proof (allclose_first (y - x) ((y - x) :: np.diff (y :: g))) as A.
  simpl in A.
  destruct (np.allclose _ _); [|reflexivity].
  exfalso. apply H. apply A. reflexivity.
Qed.

Lemma assert_equidistant_all_close (grid_points : list Q) :
  assert_equidistant grid_points = Return tt ->
  (2 <= length grid_points)%nat /\ all_close_to_first grid_points.
Proof.
  intros H. split; [apply assert_equidistant_two; exact H|].
  unfold assert_equidistant in H. unfold all_close_to_first.
  destruct (np.diff grid_points) as [|d0 ds] eqn:E; [exact I|].
  apply (allclose_first d0 (d0 :: ds)).
  destruct (np.allclose _ _); [reflexivity | discriminate].
Qed.

Lemma accumulate_raises (U ks : list Z) (neg fw : list Q) (e : exception) :
  forall result,
  accumulate U ks neg fw result = Raise e -> e = IndexError.
Proof.
  assert (Hi : forall a i x, np.iadd a i x = Raise e -> e = IndexError).
  { intros a i x. unfold np.iadd, np.index.
    destruct ((0 <=? i)%Z && (i <? Z.of_nat (length a))%Z); [discriminate|].
    destruct ((- Z.of_nat (length a) <=? i)%Z && (i <? 0)%Z); [discriminate|].
    simpl. congruence. }
  induction U as [|u U IH]; intros result H; simpl in H; [discriminate|].
  destruct (np.iadd result u _) as [r1|e1] eqn:E1; simpl in H.
  - destruct (np.iadd r1 (u + 1) _) as [r2|e2] eqn:E2; simpl in H.
    + apply (IH r2). exact H.
    + injection H as <-. apply (Hi _ _ _ E2).
  - injection H as <-. apply (Hi _ _ _ E1).
Qed.

Lemma linbin_numpy_assertion (data grid_points : list Q)
    (weights : option (list Q)) :
  linbin_numpy (finite data) (finite grid_points) (finite_opt weights)
  = Raise AssertionError ->
  assert_equidistant grid_points = Raise AssertionError.
Proof.
  rewrite linbin_numpy_finite.
  destruct (assert_equidistant grid_points) as [[]|e]; simpl.
  - destruct (negb _); [discriminate|].
    unfold transform.
    destruct (np.min grid_points) as [gmin|e] eqn:Emin; simpl.
    + destruct (np.max grid_points) as [gmax|e] eqn:Emax; simpl.
      * match goal with
        | |- bind ?m _ = _ -> _ => destruct m as [r|e] eqn:E
        end; simpl; [discriminate|].
        intros H. injection H as ->.
        unfold bin_transformed in E.
        apply accumulate_raises in E. discriminate.
      * destruct grid_points; simpl in Emax; [|discriminate].
        injection Emax as <-. discriminate.
    + destruct grid_points; simpl in Emin; [|discriminate].
      injection Emin as <-. discriminate.
  - intros H. injection H as ->. reflexivity.
Qed.

Lemma linear_binning_grid_error (cutils : option cutils_module)
    (data grid_points : list Q) (weights : option (list np_float))
    (e : exception) :
  assert_equidistant grid_points = Raise e ->
  linear_binning cutils (finite data) (finite grid_points) weights = Raise e.
Proof.
  intros H. unfold linear_binning, linbin_cython, linbin_numpy.
  destruct cutils as [c|]; rewrite !asarray_chkfinite_finite; simpl;
    rewrite H; reflexivity.
Qed.

(** ** One sample among the others *)



(** ** The public operation [linear_binning] *)

Ltac evaluate := vm_compute; reflexivity.
Ltac evaluate_vec :=
  unfold vec_eq;
  repeat (apply Forall2_cons; [vm_compute; reflexivity|]);
  apply Forall2_nil.
Ltac evaluate_returns :=
  unfold returns; eexists; split; [evaluate | evaluate_vec].
Ltac evaluate_close :=
  unfold returns_close; eexists; split; [evaluate | split; [evaluate_vec | evaluate]].

(** The three examples in the docstring of [linbin_numpy]. *)
Theorem linbin_numpy_doctests :
  returns (linbin_numpy (finite [2; 5 # 2; 3; 4]) (finite [0; 1; 2; 3; 4; 5]) None)
          [0; 0; 375 # 1000; 375 # 1000; 25 # 100; 0]
  /\ returns (linbin_numpy (finite [2; 5 # 2; 3; 4]) (finite [0; 1; 2; 3; 4; 5])
                           (Some (finite [1; 2; 3; 4])))
             [0; 0; 2 # 10; 4 # 10; 4 # 10; 0]
  /\ returns (linbin_numpy (finite [2; 5 # 2; 3; 4]) (finite [1; 2; 3; 4; 5; 6]) None)
             [0; 375 # 1000; 375 # 1000; 25 # 100; 0; 0].
Proof. split; [|split]; evaluate_returns. Qed.

(** C10: [linear_binning] does not depend on its [weights] argument: with
    or without the compiled module, for all data and grid points, any two
    weights arguments ([None] included) give the same outcome, because both
    branches call the strategy with [weights=None]. *)
Theorem linear_binning_ignores_weights (cutils : option cutils_module)
    (data grid_points : list np_float) (w1 w2 : option (list np_float)) :
  linear_binning cutils data grid_points w1
  = linear_binning cutils data grid_points w2.
Proof. destruct cutils; reflexivity. Qed.


(** C7: for [data = [1, 1.5, 1.5, 2, 2.8, 3]], [grid_points = [1, 2, 3]]
    and no weights, [linear_binning] returns [[1/3, 11/30, 3/10]], which
    [np.allclose] accepts as [[0.33333, 0.36667, 0.3]]; on the NumPy
    strategy, and on the accelerated one with [cutils] as specified. *)
Theorem linear_binning_known_example :
  returns_close
    (linear_binning None (finite [1; 3 # 2; 3 # 2; 2; 28 # 10; 3])
                    (finite [1; 2; 3]) None)
    [1 # 3; 11 # 30; 3 # 10]
    [33333 # 100000; 36667 # 100000; 3 # 10] true
  /\ returns_close
       (linear_binning (Some spec_cutils)
                       (finite [1; 3 # 2; 3 # 2; 2; 28 # 10; 3])
                       (finite [1; 2; 3]) None)
       [1 # 3; 11 # 30; 3 # 10]
       [33333 # 100000; 36667 # 100000; 3 # 10] true.
Proof. split; evaluate_close. Qed.

(** C1: on [data = [2, 2.5, 3, 4]], [grid_points = [0 .. 5]] and
    [weights = [1, 2, 3, 4]], [linear_binning] returns the uniform result
    [[0, 0, 3/8, 3/8, 1/4, 0]], which is not close to
    [[0, 0, 0.2, 0.4, 0.4, 0]]; [linbin_numpy], called with the same
    weights, returns [[0, 0, 1/5, 2/5, 2/5, 0]]. *)
Theorem linear_binning_weighted_example :
  returns_close
    (linear_binning None (finite [2; 5 # 2; 3; 4]) (finite [0; 1; 2; 3; 4; 5])
                    (Some (finite [1; 2; 3; 4])))
    [0; 0; 3 # 8; 3 # 8; 1 # 4; 0] [0; 0; 1 # 5; 2 # 5; 2 # 5; 0] false
  /\ returns_close
       (linear_binning (Some spec_cutils) (finite [2; 5 # 2; 3; 4])
                       (finite [0; 1; 2; 3; 4; 5]) (Some (finite [1; 2; 3; 4])))
       [0; 0; 3 # 8; 3 # 8; 1 # 4; 0] [0; 0; 1 # 5; 2 # 5; 2 # 5; 0] false
  /\ returns
       (linbin_numpy (finite [2; 5 # 2; 3; 4]) (finite [0; 1; 2; 3; 4; 5])
                     (Some (finite [1; 2; 3; 4])))
       [0; 0; 1 # 5; 2 # 5; 2 # 5; 0].
Proof. split; [|split]; [evaluate_close | evaluate_close | evaluate_returns]. Qed.

(** C5: [linear_binning] with four samples and three weights raises nothing
    and returns the uniform result; [linbin_numpy] on the same arguments
    raises the [ValueError] of the length check. *)
Theorem linear_binning_length_mismatch :
  returns
    (linear_binning None (finite [2; 5 # 2; 3; 4]) (finite [0; 1; 2; 3; 4; 5])
                    (Some (finite [1; 2; 3])))
    [0; 0; 3 # 8; 3 # 8; 1 # 4; 0]
  /\ returns
       (linear_binning (Some spec_cutils) (finite [2; 5 # 2; 3; 4])
                       (finite [0; 1; 2; 3; 4; 5]) (Some (finite [1; 2; 3])))
       [0; 0; 3 # 8; 3 # 8; 1 # 4; 0]
  /\ linbin_numpy (finite [2; 5 # 2; 3; 4]) (finite [0; 1; 2; 3; 4; 5])
                  (Some (finite [1; 2; 3])) = Raise (ValueError msg_length).
Proof. split; [|split]; [evaluate_returns | evaluate_returns | evaluate]. Qed.

(** The length check of the two strategies, called directly: on a grid that
    passes the check, weights of another length than the data raise the
    [ValueError] of the length check, whatever [cutils] is. *)
Theorem strategies_length_mismatch (cutils : cutils_module)
    (data grid_points w : list Q) :
  assert_equidistant grid_points = Return tt ->
  length data <> length w ->
  linbin_numpy (finite data) (finite grid_points) (Some (finite w))
  = Raise (ValueError msg_length)
  /\ linbin_cython cutils (finite data) (finite grid_points) (Some (finite w))
     = Raise (ValueError msg_length).
Proof.
  intros Hg Hl.
  assert (E : forall f : Q -> Q, (length data =? length (map f w))%nat = false).
  { intros f. apply Nat.eqb_neq. rewrite length_map. exact Hl. }
  split.
  - change (Some (finite w)) with (finite_opt (Some w)).
    rewrite linbin_numpy_finite, Hg. simpl. unfold normalised.
    rewrite E. reflexivity.
  - unfold linbin_cython. rewrite !asarray_chkfinite_finite.
    cbn [bind]. rewrite Hg. cbn [bind]. rewrite E. reflexivity.
Qed.

(** ** Samples outside the grid range *)

(** C2: on the grid [[0, 1, 2]] the sample [3], one step above the range,
    makes [linbin_numpy] and [linear_binning] raise [IndexError]; the sample
    [-1/2], half a step below, is not dropped but adds [3/2] to cell [0] and
    [-1/2] to cell [1]; the sample [5/2], half a step above, adds [1/2] to
    the last cell. *)
Theorem out_of_range_samples :
  linbin_numpy (finite [3]) (finite [0; 1; 2]) None = Raise IndexError
  /\ linear_binning None (finite [3]) (finite [0; 1; 2]) None = Raise IndexError
  /\ returns (linear_binning None (finite [-1 # 2]) (finite [0; 1; 2]) None)
             [3 # 2; -1 # 2; 0]
  /\ returns (linear_binning None (finite [5 # 2]) (finite [0; 1; 2]) None)
             [0; 0; 1 # 2].
Proof.
  split; [evaluate|]. split; [evaluate|]. split; evaluate_returns.
Qed.

(** C6: valid inputs on which the output guarantee fails.  With the samples
    [[1, 3]] on the grid [[0, 1, 2]] there is no output at all
    ([IndexError]); with the samples [[2, -1/4]] the result is
    [[5/8, -1/8, 1/2]], whose second cell is negative. *)
Theorem mass_vector_guarantee_fails :
  linear_binning None (finite [1; 3]) (finite [0; 1; 2]) None = Raise IndexError
  /\ exists out,
       linear_binning None (finite [2; -1 # 4]) (finite [0; 1; 2]) None
       = Return out
       /\ vec_eq out [5 # 8; -1 # 8; 1 # 2]
       /\ nth 1 out 0 < 0.
Proof.
  split; [evaluate|].
  eexists. split; [evaluate|]. split; [evaluate_vec | evaluate].
Qed.

(** C9: the two strategies on one input, [cutils] as specified.  For the
    sample [3] on the grid [[0, 1, 2]] the NumPy strategy raises
    [IndexError] and the accelerated one returns zeros; for the sample
    [-1/2] they return [[3/2, -1/2, 0]] and [[1/2, 0, 0]]. *)
Theorem strategies_differ_out_of_range :
  linbin_numpy (finite [3]) (finite [0; 1; 2]) None = Raise IndexError
  /\ returns (linbin_cython spec_cutils (finite [3]) (finite [0; 1; 2]) None)
             [0; 0; 0]
  /\ returns (linbin_numpy (finite [-1 # 2]) (finite [0; 1; 2]) None)
             [3 # 2; -1 # 2; 0]
  /\ returns (linbin_cython spec_cutils (finite [-1 # 2]) (finite [0; 1; 2]) None)
             [1 # 2; 0; 0].
Proof.
  split; [evaluate|]. split; [|split]; evaluate_returns.
Qed.

(** C8: a sample on the last grid point whose weight does not reach the
    last cell.  On the grid [[0, 1, 2]] the sample [2] is the last grid
    point: its coordinate has the bucket [2 = M - 1] and the fractional part
    [0], and alone it puts its whole weight in the last cell.  Next to the
    sample [3], one grid step above the range, [linbin_numpy] and
    [linear_binning] raise [IndexError] and return nothing. *)
Theorem last_grid_point_sample_lost :
  np.max [0; 1; 2] = Return 2
  /\ integral_of (coordinate 0 2 3 2) = 2%Z
  /\ fractional_of (coordinate 0 2 3 2) == 0
  /\ returns (linbin_numpy (finite [2]) (finite [0; 1; 2]) None) [0; 0; 1]
  /\ linbin_numpy (finite [2; 3]) (finite [0; 1; 2]) None = Raise IndexError
  /\ linear_binning None (finite [2; 3]) (finite [0; 1; 2]) None
     = Raise IndexError
  /\ linbin_numpy (finite [2; 3]) (finite [0; 1; 2])
                  (Some (finite [1; 1])) = Raise IndexError.
Proof.
  split; [evaluate|]. split; [evaluate|]. split; [evaluate|].
  split; [evaluate_returns|]. split; [evaluate|]. split; evaluate.
Qed.

(** ** The decomposition claimed for every coordinate *)

(** C3: [np.modf] and the cast round toward zero, so that below zero the
    decomposition is not the one by the floor.  The sample [-1/2] on the
    grid [[0, 1, 2]] has the coordinate [-1/2]; the code gives it the bucket
    [0] and the fractional part [-1/2], where the floor is [-1] and the rest
    [1/2]; and [linbin_numpy] returns [[3/2, -1/2, 0]], with a negative
    cell, instead of leaving the sample out. *)
Theorem modf_rounds_toward_zero :
  returns (transform [-1 # 2] [0; 1; 2]) [-1 # 2]
  /\ integral_of (-1 # 2) = 0%Z
  /\ Qfloor (-1 # 2) = (-1)%Z
  /\ fractional_of (-1 # 2) == -1 # 2
  /\ fractional_of (-1 # 2) < 0
  /\ ~ floor_decomposition (-1 # 2)
  /\ returns (linbin_numpy (finite [-1 # 2]) (finite [0; 1; 2]) None)
             [3 # 2; -1 # 2; 0].
Proof.
  split; [evaluate_returns|]. split; [evaluate|]. split; [evaluate|].
  split; [evaluate|]. split; [evaluate|]. split; [|evaluate_returns].
  intros [H _]. vm_compute in H. discriminate H.
Qed.

(** ** Grid validation in [linear_binning] *)

Lemma assert_equidistant_raises (grid_points : list Q) (e : exception) :
  assert_equidistant grid_points = Raise e ->
  InvalidGridError e /\ unusable grid_points.
Proof.
  intros H. destruct (Nat.lt_ge_cases (length grid_points) 2) as [Hs | Hs].
  - rewrite (assert_equidistant_short _ Hs) in H. injection H as <-.
    split; [left; reflexivity | left; exact Hs].
  - assert (Hn : ~ all_close_to_first grid_points).
    { intros Hc. rewrite (assert_equidistant_pass _ Hs Hc) in H.
      discriminate. }
    rewrite (assert_equidistant_fail _ Hs Hn) in H. injection H as <-.
    split; [right; reflexivity | right; exact Hn].
Qed.

(** C4: the grid validation statement of both strategies, on finite data
    and a finite grid.  A grid of fewer than two points raises [IndexError]
    (at [diffs[0]]), a grid of two or more points whose differences are not
    all close to the first one raises [AssertionError], and [linear_binning]
    fails with that error; these are the errors of the validation statement,
    [InvalidGridError] in the specification.  Validation raises exactly when
    the grid is unusable, and passes otherwise; and the NumPy strategy raises
    [AssertionError] for no other reason.  Examples: [[0, 1, 3]], [[5]] and
    the empty grid fail, [[1, 2, 3]] passes. *)
Theorem grid_validation (cutils : option cutils_module)
    (data grid_points : list Q) (weights : option (list np_float)) :
  let bin := fun grid =>
    linear_binning cutils (finite data) (finite grid) weights in
  ((length grid_points < 2)%nat ->
   assert_equidistant grid_points = Raise IndexError
   /\ bin grid_points = Raise IndexError)
  /\ ((2 <= length grid_points)%nat -> ~ all_close_to_first grid_points ->
      assert_equidistant grid_points = Raise AssertionError
      /\ bin grid_points = Raise AssertionError)
  /\ (unusable grid_points <->
      exists e, InvalidGridError e
                /\ assert_equidistant grid_points = Raise e
                /\ bin grid_points = Raise e)
  /\ (~ unusable grid_points <-> assert_equidistant grid_points = Return tt)
  /\ (linear_binning None (finite data) (finite grid_points) weights
      = Raise AssertionError ->
      (2 <= length grid_points)%nat /\ ~ all_close_to_first grid_points)
  /\ bin [0; 1; 3] = Raise AssertionError
  /\ bin [5] = Raise IndexError
  /\ bin [] = Raise IndexError
  /\ assert_equidistant [1; 2; 3] = Return tt.
Proof.
  intros bin.
  assert (Short : (length grid_points < 2)%nat ->
            assert_equidistant grid_points = Raise IndexError
            /\ bin grid_points = Raise IndexError).
  { intros H. pose proof (assert_equidistant_short _ H) as E.
    split; [exact E | apply linear_binning_grid_error, E]. }
  assert (Uneven : (2 <= length grid_points)%nat ->
            ~ all_close_to_first grid_points ->
            assert_equidistant grid_points = Raise AssertionError
            /\ bin grid_points = Raise AssertionError).
  { intros H2 Hn. pose proof (assert_equidistant_fail _ H2 Hn) as E.
    split; [exact E | apply linear_binning_grid_error, E]. }
  split; [exact Short|]. split; [exact Uneven|]. split; [|split; [|split]].
  - split.
    + intros [Hs | Hn].
      * exists IndexError. split; [left; reflexivity | apply Short, Hs].
      * destruct (Nat.lt_ge_cases (length grid_points) 2) as [Hs | Hs].
        -- exists IndexError. split; [left; reflexivity | apply Short, Hs].
        -- exists AssertionError.
           split; [right; reflexivity | apply Uneven; assumption].
    + intros [e [_ [E _]]]. apply (assert_equidistant_raises _ e E).
  - split.
    + intros Hu.
      destruct (assert_equidistant grid_points) as [[]|e] eqn:E;
        [reflexivity|].
      exfalso. apply Hu. apply (assert_equidistant_raises _ e E).
    + intros E [Hs | Hn].
      * rewrite (assert_equidistant_short _ Hs) in E. discriminate.
      * destruct (assert_equidistant_all_close _ E) as [_ Hc]. exact (Hn Hc).
  - intros H. unfold linear_binning in H.
    change (@None (list np_float)) with (finite_opt None) in H.
    apply linbin_numpy_assertion in H.
    destruct (Nat.lt_ge_cases (length grid_points) 2) as [Hs | Hs].
    + rewrite (assert_equidistant_short _ Hs) in H. discriminate.
    + split; [exact Hs|]. intros Hc.
      rewrite (assert_equidistant_pass _ Hs Hc) in H. discriminate.
  - split; [|split; [|split]];
      try (apply linear_binning_grid_error); reflexivity.
Qed.

(** ** The two strategies on samples inside the grid range *)

Lemma spec_contribute_length (result : list Q) (t w : Q) :
  length (spec_contribute result t w) = length result.
Proof.
  unfold spec_contribute.
  repeat match goal with
         | |- context [if ?c then _ else _] => destruct c
         end; rewrite ?add_at_length; reflexivity.
Qed.

Lemma spec_contribute_nth (result : list Q) (t w : Q) (j : nat) :
  nth j (spec_contribute result t w) 0
  == nth j result 0 + spec_share (length result) j t w.
Proof.
  unfold spec_contribute, spec_share.
  set (M := (Z.of_nat (length result) - 1)%Z).
  set (b := Qfloor t). set (f := t - inject_Z b).
  destruct (Z.leb_spec 0 b); destruct (Z.ltb_spec b M);
    destruct (Z.leb_spec 0 (b + 1)); destruct (Z.ltb_spec (b + 1) M);
    destruct (Z.eqb_spec b (Z.of_nat j));
    destruct (Z.eqb_spec (b + 1) (Z.of_nat j)); simpl; try lia;
    rewrite ?add_at_nth by (rewrite ?add_at_length; lia);
    repeat match goal with
           | |- context [(?x =? ?y)%nat] => destruct (Nat.eqb_spec x y)
           end; try lia; ring.
Qed.

Lemma spec_iterate_length (ts : list Q) : forall ws result,
  length (spec_iterate_data_weighted ts ws result) = length result.
Proof.
  induction ts as [|t ts IH]; intros [|w ws] result; simpl; try reflexivity.
  rewrite IH. apply spec_contribute_length.
Qed.

Lemma spec_iterate_nth (j : nat) (ts : list Q) : forall ws result,
  nth j (spec_iterate_data_weighted ts ws result) 0
  == nth j result 0
     + np.sum (np.zip_with (spec_share (length result) j) ts ws).
Proof.
  induction ts as [|t ts IH]; intros [|w ws] result; simpl; try ring.
  rewrite IH, spec_contribute_nth, spec_contribute_length. ring.
Qed.

Lemma spec_share_in_range (M j : nat) (t w : Q) :
  (j < M)%nat -> 0 <= t -> (integral_of t <= Z.of_nat M - 1)%Z ->
  spec_share (M + 1) j t w == share (Z.of_nat j) t w.
Proof.
  intros Hj Ht Hi. unfold spec_share, share.
  rewrite fractional_integral. rewrite (integral_of_nonneg t Ht) in *.
  pose proof (integral_of_nonneg_bounds t Ht) as [Hb _].
  rewrite (integral_of_nonneg t Ht) in Hb.
  replace (Z.of_nat (M + 1) - 1)%Z with (Z.of_nat M) by lia.
  destruct (Z.leb_spec 0 (Qfloor t)); destruct (Z.ltb_spec (Qfloor t) (Z.of_nat M));
    destruct (Z.leb_spec 0 (Qfloor t + 1));
    destruct (Z.ltb_spec (Qfloor t + 1) (Z.of_nat M));
    destruct (Z.eqb_spec (Qfloor t) (Z.of_nat j));
    destruct (Z.eqb_spec (Qfloor t + 1) (Z.of_nat j)); simpl; try lia; ring.
Qed.

Lemma share_linear (j : Z) (t w c : Q) : share j t (w * c) == share j t w * c.
Proof.
  unfold share.
  destruct (integral_of t =? j)%Z,
           ((0 <=? integral_of t) && (integral_of t + 1 =? j))%Z; ring.
Qed.

Lemma vec_eq_nth (a b : list Q) :
  length a = length b ->
  (forall j, (j < length a)%nat -> nth j a 0 == nth j b 0) ->
  vec_eq a b.
Proof.
  unfold vec_eq. revert b.
  induction a as [|x a IH]; intros [|y b] Hl Hn; simpl in *;
    try discriminate; constructor.
  - apply (Hn O). lia.
  - apply IH; [congruence|]. intros j Hj. apply (Hn (S j)). lia.
Qed.

Lemma zip_with_scaled (f : Q -> Q -> Q) (c : Q) (ts ws : list Q) :
  (forall t w, f t (w / c) == f t w / c) ->
  np.sum (np.zip_with f ts (map (fun w => w / c) ws))
  == np.sum (np.zip_with f ts ws) / c.
Proof.
  intros Hf. revert ws.
  induction ts as [|t ts IH]; intros [|w ws]; simpl;
    try (unfold Qdiv; ring).
  rewrite IH, Hf. unfold Qdiv. ring.
Qed.

Section Strategies.

Variables (data grid_points : list Q) (weights : option (list Q)).
Variables (gmin gmax : Q).

Let M : nat := length grid_points.
Let ts : list Q := map (coordinate gmin gmax M) data.

Hypothesis grid_ok : assert_equidistant grid_points = Return tt.
Hypothesis grid_min : np.min grid_points = Return gmin.
Hypothesis grid_max : np.max grid_points = Return gmax.
Hypothesis grid_wide : gmin < gmax.
Hypothesis weights_ok : length data = length (weights_or_ones data weights).
Hypothesis weights_sum : ~ np.sum (weights_or_ones data weights) == 0.
Hypothesis in_range : Forall (fun d => gmin <= d <= gmax) data.

Lemma ts_in_range :
  Forall (fun t => 0 <= t /\ (integral_of t <= Z.of_nat M - 1)%Z) ts.
Proof.
  assert (HM : (2 <= M)%nat) by (apply assert_equidistant_two; exact grid_ok).
  unfold ts. apply Forall_forall. intros t Ht. apply in_map_iff in Ht.
  destruct Ht as [d [<- Hd]]. rewrite Forall_forall in in_range.
  specialize (in_range d Hd). split.
  - apply (coordinate_range gmin gmax M grid_wide HM d in_range).
  - apply (in_range_bucket gmin gmax M grid_wide HM d in_range).
Qed.

Lemma linbin_cython_spec :
  linbin_cython spec_cutils (finite data) (finite grid_points)
                (finite_opt weights)
  = Return
      match weights with
      | Some w =>
          removelast (spec_iterate_data_weighted ts (normalised w)
                        (np.zeros (M + 1)))
      | None =>
          map (fun r => r / inject_Z (Z.of_nat (length ts)))
              (removelast (spec_iterate_data ts (np.zeros (M + 1))))
      end.
Proof.
  unfold linbin_cython. rewrite !asarray_chkfinite_finite. cbn [bind].
  rewrite grid_ok. cbn [bind].
  destruct weights as [w|]; cbn [finite_opt option_map bind].
  - rewrite asarray_chkfinite_finite. cbn [bind].
    simpl in weights_ok. rewrite length_map, <- weights_ok, Nat.eqb_refl.
    cbn [negb].
    rewrite (transform_coordinates data grid_points gmin gmax grid_min grid_max).
    reflexivity.
  - rewrite (transform_coordinates data grid_points gmin gmax grid_min grid_max).
    reflexivity.
Qed.

(** For samples inside [[gmin, gmax]] the NumPy strategy and the accelerated
    strategy as specified return the same vector. *)
Theorem strategies_agree_in_range :
  exists a b,
    linbin_numpy (finite data) (finite grid_points) (finite_opt weights)
    = Return a
    /\ linbin_cython spec_cutils (finite data) (finite grid_points)
                     (finite_opt weights) = Return b
    /\ vec_eq a b.
Proof.
  pose proof ts_in_range as Hts.
  destruct (numpy_cells data grid_points weights gmin gmax
              grid_ok grid_min grid_max weights_ok) as [a [Ha [Hla Hna]]].
  { eapply Forall_impl; [|exact Hts]. simpl. fold M. intros t [_ Ht]. lia. }
  fold M ts in Hla, Hna.
  exists a. eexists. split; [exact Ha|]. split; [apply linbin_cython_spec|].
  assert (Hz : forall j, nth j (np.zeros (M + 1)) 0 = 0)
    by (intros j; unfold np.zeros; apply nth_repeat).
  assert (HzL : length (np.zeros (M + 1)) = (M + 1)%nat)
    by (unfold np.zeros; apply repeat_length).
  assert (Hshare : forall j ws, (j < M)%nat ->
            np.sum (np.zip_with (spec_share (M + 1) j) ts ws)
            == scatter (Z.of_nat j) ts ws).
  { intros j ws Hj. unfold scatter.
    apply (sum_zip_with_ext _ _ _ ts) with (2 := Hts).
    intros t w [H0 Hi]. apply spec_share_in_range; assumption. }
  destruct weights as [w|]; simpl weights_or_ones in *.
  - apply vec_eq_nth.
    + rewrite Hla, removelast_length, spec_iterate_length, HzL. lia.
    + intros j Hj. rewrite Hla in Hj. rewrite (Hna j Hj).
      rewrite removelast_nth by (rewrite spec_iterate_length, HzL; lia).
      rewrite spec_iterate_nth, Hz, HzL, Hshare by exact Hj. ring.
  - apply vec_eq_nth.
    + rewrite Hla, length_map, removelast_length.
      unfold spec_iterate_data. rewrite spec_iterate_length, HzL. lia.
    + intros j Hj. rewrite Hla in Hj. rewrite (Hna j Hj).
      set (N := inject_Z (Z.of_nat (length ts))).
      assert (HN : np.sum (np.ones_like data) == N).
      { unfold N, ts. rewrite length_map. apply sum_ones_like. }
      assert (HN0 : ~ N == 0) by (rewrite <- HN; exact weights_sum).
      rewrite (nth_indep _ 0 (0 / N))
        by (rewrite length_map, removelast_length;
            unfold spec_iterate_data; rewrite spec_iterate_length, HzL; lia).
      rewrite (map_nth (fun r => r / N)).
      rewrite removelast_nth
        by (unfold spec_iterate_data; rewrite spec_iterate_length, HzL; lia).
      unfold spec_iterate_data.
      rewrite spec_iterate_nth, Hz, HzL, Hshare by exact Hj.
      unfold normalised, scatter.
      rewrite zip_with_scaled.
      * rewrite HN.
        assert (E : np.ones_like ts = np.ones_like data)
          by (unfold np.ones_like, ts; apply map_map).
        rewrite E. field. exact HN0.
      * intros t w. unfold Qdiv. apply share_linear.
Qed.

End Strategies.

(** ** Which samples are dropped, and which raise *)

Lemma integral_of_between (t : Q) (z : Z) :
  (0 <= z)%Z -> inject_Z z <= t -> t < inject_Z (z + 1) -> integral_of t = z.
Proof.
  intros Hz Hl Hu.
  assert (H0 : 0 <= t).
  { apply Qle_trans with (inject_Z z); [|exact Hl].
    change 0 with (inject_Z 0). rewrite <- Zle_Qle. exact Hz. }
  rewrite (integral_of_nonneg t H0).
  pose proof (Qfloor_le t) as Fl. pose proof (Qlt_floor t) as Fu.
  assert (A : (z < Qfloor t + 1)%Z) by (rewrite Zlt_Qlt; lra).
  assert (B : (Qfloor t < z + 1)%Z) by (rewrite Zlt_Qlt; lra).
  lia.
Qed.

(** A sample whose bucket is negative or at least [M] adds nothing to any
    of the cells [0 .. M - 1]. *)
Theorem share_dropped (M j : nat) (t w : Q) :
  (j < M)%nat ->
  (integral_of t < 0 \/ Z.of_nat M <= integral_of t)%Z ->
  share (Z.of_nat j) t w == 0.
Proof.
  intros Hj Hi. unfold share.
  destruct (Z.eqb_spec (integral_of t) (Z.of_nat j));
    destruct (Z.leb_spec 0 (integral_of t));
    destruct (Z.eqb_spec (integral_of t + 1) (Z.of_nat j));
    simpl; try lia; reflexivity.
Qed.

Lemma inject_Z_intervals (M : nat) :
  inject_Z (Z.of_nat M) == inject_Z (Z.of_nat M - 1) + 1.
Proof.
  change 1 with (inject_Z 1). rewrite <- inject_Z_plus.
  replace (Z.of_nat M - 1 + 1)%Z with (Z.of_nat M) by lia. reflexivity.
Qed.

(** ** The output guarantee of [linear_binning] on samples inside the range *)

(** On finite, non-empty data inside [[gmin, gmax]] and a grid that passes
    the check, [linear_binning] on the NumPy strategy returns as many cells
    as the grid has points, none negative, and they sum to one. *)
Theorem linear_binning_in_range (data grid_points : list Q)
    (weights : option (list np_float)) (gmin gmax : Q) :
  assert_equidistant grid_points = Return tt ->
  np.min grid_points = Return gmin ->
  np.max grid_points = Return gmax ->
  gmin < gmax ->
  data <> [] ->
  Forall (fun d => gmin <= d <= gmax) data ->
  exists out,
    linear_binning None (finite data) (finite grid_points) weights = Return out
    /\ length out = length grid_points
    /\ Forall (fun x => 0 <= x) out
    /\ np.sum out == 1.
Proof.
  intros Hg Hmin Hmax Hw Hne Hin. unfold linear_binning.
  change (@None (list np_float)) with (finite_opt None).
  apply (numpy_mass_in_range data grid_points None gmin gmax Hg Hmin Hmax Hw).
  - simpl. unfold np.ones_like. rewrite length_map. reflexivity.
  - simpl. unfold np.ones_like. apply Forall_forall. intros x Hx.
    apply in_map_iff in Hx. destruct Hx as [_ [<- _]]. lra.
  - simpl. rewrite sum_ones_like.
    destruct data as [|x l]; [congruence|].
    change 0 with (inject_Z 0). rewrite inject_Z_injective. simpl length. lia.
  - exact Hin.
Qed.

(** ** Instances *)

Ltac in_range_instance :=
  repeat (apply Forall_cons; [vm_compute; intuition discriminate|]);
  apply Forall_nil.

Lemma linear_binning_in_range_witness :
  exists out,
    linear_binning None (finite [1; 3 # 2; 3 # 2; 2; 28 # 10; 3])
                   (finite [1; 2; 3]) None = Return out
    /\ length out = 3%nat
    /\ Forall (fun x => 0 <= x) out
    /\ np.sum out == 1.
Proof.
  apply (linear_binning_in_range [1; 3 # 2; 3 # 2; 2; 28 # 10; 3] [1; 2; 3]
           None 1 3).
  - reflexivity.
  - reflexivity.
  - reflexivity.
  - reflexivity.
  - discriminate.
  - in_range_instance.
Defined.

Lemma linbin_numpy_in_range_witness :
  exists out,
    linbin_numpy (finite [2; 5 # 2; 3; 4]) (finite [0; 1; 2; 3; 4; 5])
                 (Some (finite [1; 2; 3; 4])) = Return out
    /\ length out = 6%nat
    /\ Forall (fun x => 0 <= x) out
    /\ np.sum out == 1.
Proof.
  apply (linbin_numpy_in_range [2; 5 # 2; 3; 4] [0; 1; 2; 3; 4; 5]
           (Some [1; 2; 3; 4]) 0 5).
  - reflexivity.
  - reflexivity.
  - reflexivity.
  - reflexivity.
  - reflexivity.
  - in_range_instance.
  - vm_compute. discriminate.
  - in_range_instance.
Defined.

Lemma strategies_length_mismatch_witness :
  linbin_numpy (finite [2; 5 # 2; 3; 4]) (finite [0; 1; 2; 3; 4; 5])
               (Some (finite [1; 2; 3])) = Raise (ValueError msg_length)
  /\ linbin_cython spec_cutils (finite [2; 5 # 2; 3; 4])
                   (finite [0; 1; 2; 3; 4; 5]) (Some (finite [1; 2; 3]))
     = Raise (ValueError msg_length).
Proof.
  apply (strategies_length_mismatch spec_cutils [2; 5 # 2; 3; 4]
           [0; 1; 2; 3; 4; 5] [1; 2; 3]).
  - reflexivity.
  - simpl. lia.
Defined.

Lemma strategies_agree_in_range_witness :
  exists a b,
    linbin_numpy (finite [2; 5 # 2; 3; 4]) (finite [0; 1; 2; 3; 4; 5])
                 (Some (finite [1; 2; 3; 4])) = Return a
    /\ linbin_cython spec_cutils (finite [2; 5 # 2; 3; 4])
                     (finite [0; 1; 2; 3; 4; 5]) (Some (finite [1; 2; 3; 4]))
       = Return b
    /\ vec_eq a b.
Proof.
  apply (strategies_agree_in_range [2; 5 # 2; 3; 4] [0; 1; 2; 3; 4; 5]
           (Some [1; 2; 3; 4]) 0 5).
  - reflexivity.
  - reflexivity.
  - reflexivity.
  - reflexivity.
  - reflexivity.
  - vm_compute. discriminate.
  - in_range_instance.
Defined.

Lemma share_dropped_witness : share (Z.of_nat 2) (-3 # 2) (1 # 4) == 0.
Proof.
  apply (share_dropped 3 2 (-3 # 2) (1 # 4)).
  - lia.
  - left. vm_compute. reflexivity.
Defined.

(** ** Non-finite arguments *)

Lemma asarray_chkfinite_rejects (a : list np_float) :
  existsb (fun x => negb (is_finite x)) a = true ->
  np.asarray_chkfinite a = Raise (ValueError msg_nonfinite).
Proof.
  induction a as [|x a IH]; simpl; [discriminate|].
  destruct x as [q| | |]; simpl; try reflexivity.
  intros H. rewrite (IH H). reflexivity.
Qed.

Lemma asarray_chkfinite_accepts (a : list np_float) :
  existsb (fun x => negb (is_finite x)) a = false ->
  exists l, a = finite l /\ np.asarray_chkfinite a = Return l.
Proof.
  induction a as [|x a IH]; simpl.
  - intros _. exists []. split; reflexivity.
  - destruct x as [q| | |]; simpl; try discriminate.
    intros H. destruct (IH H) as [l [-> Hl]].
    exists (q :: l). split; [reflexivity|].
    fold (finite l). rewrite asarray_chkfinite_finite. reflexivity.
Qed.

(** A NaN or an infinity among the data makes the three functions raise
    the [ValueError] of [np.asarray_chkfinite], whatever the grid and the
    weights are; so does one in the grid when the data are finite; and one in
    the weights makes the two strategies raise it when data and grid are
    finite and the grid passes its check, before the lengths are compared. *)
Theorem nonfinite_rejected (cutils : cutils_module)
    (data grid_points : list np_float) (weights : option (list np_float)) :
  (existsb (fun x => negb (is_finite x)) data = true ->
   linbin_numpy data grid_points weights = Raise (ValueError msg_nonfinite)
   /\ linbin_cython cutils data grid_points weights
      = Raise (ValueError msg_nonfinite)
   /\ linear_binning (Some cutils) data grid_points weights
      = Raise (ValueError msg_nonfinite)
   /\ linear_binning None data grid_points weights
      = Raise (ValueError msg_nonfinite))
  /\ (existsb (fun x => negb (is_finite x)) data = false ->
      existsb (fun x => negb (is_finite x)) grid_points = true ->
      linbin_numpy data grid_points weights = Raise (ValueError msg_nonfinite)
      /\ linbin_cython cutils data grid_points weights
         = Raise (ValueError msg_nonfinite)
      /\ linear_binning (Some cutils) data grid_points weights
         = Raise (ValueError msg_nonfinite)
      /\ linear_binning None data grid_points weights
         = Raise (ValueError msg_nonfinite))
  /\ (forall d g w,
        data = finite d -> grid_points = finite g -> weights = Some w ->
        assert_equidistant g = Return tt ->
        existsb (fun x => negb (is_finite x)) w = true ->
        linbin_numpy data grid_points weights = Raise (ValueError msg_nonfinite)
        /\ linbin_cython cutils data grid_points weights
           = Raise (ValueError msg_nonfinite)).
Proof.
  split; [|split].
  - intros H. unfold linear_binning, linbin_numpy, linbin_cython.
    rewrite (asarray_chkfinite_rejects data H). repeat split; reflexivity.
  - intros Hd Hg. destruct (asarray_chkfinite_accepts data Hd) as [l [-> Hl]].
    unfold linear_binning, linbin_numpy, linbin_cython.
    rewrite Hl, (asarray_chkfinite_rejects grid_points Hg).
    repeat split; reflexivity.
  - intros d g w -> -> -> Hg Hw. unfold linbin_numpy, linbin_cython.
    rewrite !asarray_chkfinite_finite. cbn [bind]. rewrite Hg. cbn [bind].
    rewrite (asarray_chkfinite_rejects w Hw). split; reflexivity.
Qed.

(** ** No data *)

Lemma removelast_repeat {A : Type} (x : A) (n : nat) :
  removelast (repeat x (n + 1)) = repeat x n.
Proof.
  induction n as [|n IH]; [reflexivity|].
  change (repeat x (S n + 1)) with (x :: repeat x (n + 1)).
  change (repeat x (S n)) with (x :: repeat x n).
  rewrite <- IH. simpl.
  destruct (repeat x (n + 1)) eqn:E; [|reflexivity].
  apply (f_equal (@length A)) in E. rewrite repeat_length in E. simpl in E. lia.
Qed.

(** With no samples (and no weights, or an empty weights array) and a grid
    that passes its check, [linbin_numpy] raises nothing and returns
    [len(grid_points)] zeros: the mass is zero, not one. *)
Theorem linbin_numpy_no_data (grid_points : list Q)
    (weights : option (list Q)) :
  assert_equidistant grid_points = Return tt ->
  weights = None \/ weights = Some [] ->
  linbin_numpy (finite []) (finite grid_points) (finite_opt weights)
  = Return (np.zeros (length grid_points)).
Proof.
  intros Hg Hw. rewrite linbin_numpy_finite, Hg. cbn [bind].
  assert (E : weights_or_ones [] weights = [])
    by (destruct Hw as [-> | ->]; reflexivity).
  rewrite E. simpl negb. cbv iota.
  unfold transform.
  destruct grid_points as [|x g]; [discriminate Hg|].
  cbn [np.min np.max bind map]. unfold bin_transformed.
  cbn [map np.argsort length seq fold_right np.take np.zip_with np.unique
       filter accumulate bind].
  unfold np.zeros. rewrite removelast_repeat. reflexivity.
Qed.

Lemma linbin_numpy_no_data_witness :
  linbin_numpy (finite []) (finite [0; 1; 2]) (finite_opt None)
  = Return (np.zeros 3).
Proof.
  apply (linbin_numpy_no_data [0; 1; 2] None).
  - reflexivity.
  - left. reflexivity.
Defined.

(** ** Whether a sample falls in the bucket [M] *)

Lemma overflows_dec (M : nat) (ts : list Q) :
  {overflows M ts} + {~ overflows M ts}.
Proof.
  unfold overflows. apply Exists_dec. intros t. apply Z.eq_dec.
Qed.

Lemma not_overflows (M : nat) (ts : list Q) :
  ~ overflows M ts -> Forall (fun t => integral_of t <> Z.of_nat M) ts.
Proof.
  intros H. apply Forall_forall. intros t Ht E. apply H.
  apply Exists_exists. exists t. split; assumption.
Qed.

(** ** Equal rationals give equal shares *)

Lemma integral_of_comp (t t' : Q) : t == t' -> integral_of t = integral_of t'.
Proof.
  intros E. destruct (Qlt_le_dec t 0) as [H | H].
  - rewrite (integral_of_nonpos t) by lra.
    rewrite (integral_of_nonpos t') by lra.
    apply Qceiling_comp. exact E.
  - rewrite (integral_of_nonneg t H).
    rewrite (integral_of_nonneg t') by lra.
    apply Qfloor_comp. exact E.
Qed.

Lemma fractional_of_comp (t t' : Q) :
  t == t' -> fractional_of t == fractional_of t'.
Proof.
  intros E. rewrite !fractional_integral, (integral_of_comp t t' E), E.
  reflexivity.
Qed.

Lemma share_comp (j : Z) (t t' w w' : Q) :
  t == t' -> w == w' -> share j t w == share j t' w'.
Proof.
  intros Et Ew. unfold share.
  rewrite (integral_of_comp t t' Et).
  pose proof (fractional_of_comp t t' Et) as Ef.
  destruct (integral_of t' =? j)%Z,
           ((0 <=? integral_of t') && (integral_of t' + 1 =? j))%Z;
    rewrite ?Ef, ?Ew; reflexivity.
Qed.

Lemma scatter_comp (j : Z) (ts ts' ws ws' : list Q) :
  Forall2 Qeq ts ts' -> Forall2 Qeq ws ws' ->
  scatter j ts ws == scatter j ts' ws'.
Proof.
  unfold scatter. intros Ht. revert ws ws'.
  induction Ht as [|t t' ts ts' Et _ IH]; intros ws ws' Hw.
  - destruct ws, ws'; reflexivity.
  - destruct Hw as [|w w' ws ws' Ew Hw]; simpl; [reflexivity|].
    rewrite (share_comp j t t' w w' Et Ew), (IH ws ws' Hw). reflexivity.
Qed.

Lemma overflows_comp (M : nat) (ts ts' : list Q) :
  Forall2 Qeq ts ts' -> overflows M ts -> overflows M ts'.
Proof.
  unfold overflows. induction 1 as [|t t' ts ts' Et _ IH]; intros H.
  - inversion H.
  - inversion H as [? ? H0 | ? ? H0]; subst.
    + apply Exists_cons_hd. rewrite <- (integral_of_comp t t' Et). exact H0.
    + apply Exists_cons_tl. apply IH. exact H0.
Qed.

Lemma Forall2_Qeq_refl (l : list Q) : Forall2 Qeq l l.
Proof. induction l; constructor; [reflexivity | assumption]. Qed.

Lemma Forall2_Qeq_sym (a b : list Q) : Forall2 Qeq a b -> Forall2 Qeq b a.
Proof. induction 1; constructor; [symmetry|]; assumption. Qed.

(** Two calls of [linbin_numpy] whose samples fall in the bucket [M]
    together, and whose shares add up to the same in every cell, have the same
    outcome. *)
Lemma numpy_equiv (data data' grid_points grid_points' : list Q)
    (weights weights' : option (list Q)) (gmin gmax gmin' gmax' : Q) :
  let M := length grid_points in
  let ts := map (coordinate gmin gmax M) data in
  let ts' := map (coordinate gmin' gmax' M) data' in
  let ws := normalised (weights_or_ones data weights) in
  let ws' := normalised (weights_or_ones data' weights') in
  length grid_points' = M ->
  assert_equidistant grid_points = Return tt ->
  assert_equidistant grid_points' = Return tt ->
  np.min grid_points = Return gmin -> np.max grid_points = Return gmax ->
  np.min grid_points' = Return gmin' -> np.max grid_points' = Return gmax' ->
  length data = length (weights_or_ones data weights) ->
  length data' = length (weights_or_ones data' weights') ->
  (overflows M ts <-> overflows M ts') ->
  (forall j, (j < M)%nat ->
     scatter (Z.of_nat j) ts ws == scatter (Z.of_nat j) ts' ws') ->
  outcome_eq
    (linbin_numpy (finite data) (finite grid_points) (finite_opt weights))
    (linbin_numpy (finite data') (finite grid_points') (finite_opt weights')).
Proof.
  intros M ts ts' ws ws' HM Hg Hg' Hmin Hmax Hmin' Hmax' Hl Hl' Ho Hs.
  destruct (overflows_dec M ts) as [O | O].
  - rewrite (numpy_bucket_raises data grid_points weights gmin gmax
               Hg Hmin Hmax Hl O).
    rewrite (numpy_bucket_raises data' grid_points' weights' gmin' gmax'
               Hg' Hmin' Hmax' Hl').
    + reflexivity.
    + rewrite HM. apply Ho. exact O.
  - destruct (numpy_cells data grid_points weights gmin gmax
                Hg Hmin Hmax Hl (not_overflows _ _ O)) as [a [-> [La Na]]].
    destruct (numpy_cells data' grid_points' weights' gmin' gmax'
                Hg' Hmin' Hmax' Hl') as [b [-> [Lb Nb]]].
    + rewrite HM. apply not_overflows. intros O'. apply O, Ho, O'.
    + simpl. apply vec_eq_nth; [rewrite La, Lb, HM; reflexivity|].
      intros j Hj. rewrite La in Hj. fold M ts ws in Na.
      rewrite HM in Nb. fold ts' ws' in Nb.
      rewrite (Na j Hj), (Nb j Hj). apply Hs. exact Hj.
Qed.

(** ** The order of the samples and the scale of the weights *)



Lemma overflows_perm (M : nat) (ts ts' : list Q) :
  Permutation ts ts' -> overflows M ts -> overflows M ts'.
Proof.
  unfold overflows. intros Hp H. apply Exists_exists in H.
  destruct H as [t [Ht E]]. apply Exists_exists. exists t.
  split; [apply (Permutation_in _ Hp Ht) | exact E].
Qed.


Lemma linbin_numpy_ones (data grid_points : list Q) :
  linbin_numpy (finite data) (finite grid_points) None
  = linbin_numpy (finite data) (finite grid_points)
                 (Some (finite (np.ones_like data))).
Proof.
  change (@None (list np_float)) with (finite_opt None).
  change (Some (finite (np.ones_like data)))
    with (finite_opt (Some (np.ones_like data))).
  rewrite !linbin_numpy_finite. reflexivity.
Qed.

Lemma scatter_ones (j : Z) (c : Q -> Q) (S : Q) (data : list Q) :
  scatter j (map c data) (map (fun w => w / S) (np.ones_like data))
  = np.sum (map (fun d => share j (c d) (1 / S)) data).
Proof.
  unfold scatter, np.ones_like. induction data as [|d l IH]; simpl;
    [reflexivity|].
  rewrite IH. reflexivity.
Qed.

(** [linear_binning], on the NumPy strategy, does not depend on the order
    of the samples. *)
Theorem linear_binning_permutation (data data' grid_points : list Q)
    (weights weights' : option (list np_float)) (gmin gmax : Q) :
  assert_equidistant grid_points = Return tt ->
  np.min grid_points = Return gmin ->
  np.max grid_points = Return gmax ->
  gmin < gmax ->
  data <> [] ->
  Permutation data data' ->
  outcome_eq
    (linear_binning None (finite data) (finite grid_points) weights)
    (linear_binning None (finite data') (finite grid_points) weights').
Proof.
  intros Hg Hmin Hmax _ _ Hp. unfold linear_binning.
  change (@None (list np_float)) with (finite_opt None).
  assert (L : np.ones_like data' = np.ones_like data).
  { unfold np.ones_like. rewrite !map_const.
    rewrite (Permutation_length Hp). reflexivity. }
  apply (numpy_equiv data data' grid_points grid_points None None
           gmin gmax gmin gmax); try assumption; try reflexivity.
  - cbn [weights_or_ones]. unfold np.ones_like. symmetry. apply length_map.
  - cbn [weights_or_ones]. unfold np.ones_like. symmetry. apply length_map.
  - assert (Hq : Permutation
                   (map (coordinate gmin gmax (length grid_points)) data)
                   (map (coordinate gmin gmax (length grid_points)) data'))
      by (apply Permutation_map, Hp).
    split; apply overflows_perm; [exact Hq | apply Permutation_sym, Hq].
  - intros j _. cbn [weights_or_ones]. unfold normalised.
    rewrite !scatter_ones, L.
    apply sum_perm, Permutation_map, Hp.
Qed.


Lemma Forall2_map_ext (f g : Q -> Q) (l : list Q) :
  (forall x, f x == g x) -> Forall2 Qeq (map f l) (map g l).
Proof.
  intros H. induction l as [|x l IH]; simpl; constructor; [apply H | exact IH].
Qed.



(** ** Moving data and grid together *)

Lemma diff_shift (c : Q) (g : list Q) :
  Forall2 Qeq (np.diff (map (fun x => x + c) g)) (np.diff g).
Proof.
  induction g as [|x g IH]; simpl; [constructor|].
  destruct g as [|y g]; simpl in *; constructor; [ring | exact IH].
Qed.

Lemma isclose_comp (a a' b b' : Q) :
  a == a' -> b == b' -> np.isclose a b = np.isclose a' b'.
Proof.
  intros Ea Eb. unfold np.isclose. apply Qleb_comp.
  - apply Qabs_wd. rewrite Ea, Eb. reflexivity.
  - rewrite (Qabs_wd b b' Eb). reflexivity.
Qed.

Lemma allclose_first_comp (d0 d0' : Q) (ds ds' : list Q) :
  d0 == d0' -> Forall2 Qeq ds ds' ->
  np.allclose (map (fun one => one * d0) (np.ones_like ds)) ds
  = np.allclose (map (fun one => one * d0') (np.ones_like ds')) ds'.
Proof.
  intros E0. unfold np.allclose, np.ones_like.
  induction 1 as [|d d' ds ds' Ed _ IH]; simpl; [reflexivity|].
  rewrite IH. f_equal. apply isclose_comp; [rewrite E0; reflexivity | exact Ed].
Qed.

Lemma assert_equidistant_shift (c : Q) (g : list Q) :
  assert_equidistant (map (fun x => x + c) g) = assert_equidistant g.
Proof.
  unfold assert_equidistant. pose proof (diff_shift c g) as H.
  destruct H as [|d d' ds ds' Ed Hds]; [reflexivity|].
  rewrite (allclose_first_comp d d' (d :: ds) (d' :: ds') Ed).
  - reflexivity.
  - constructor; assumption.
Qed.

Lemma fold_min_shift (c : Q) (t : list Q) : forall x x',
  x' == x + c ->
  fold_left Qmin (map (fun y => y + c) t) x' == fold_left Qmin t x + c.
Proof.
  induction t as [|y t IH]; intros x x' E; simpl; [exact E|].
  apply IH. rewrite E. apply Q.plus_min_distr_r.
Qed.

Lemma fold_max_shift (c : Q) (t : list Q) : forall x x',
  x' == x + c ->
  fold_left Qmax (map (fun y => y + c) t) x' == fold_left Qmax t x + c.
Proof.
  induction t as [|y t IH]; intros x x' E; simpl; [exact E|].
  apply IH. rewrite E. apply Q.plus_max_distr_r.
Qed.

Lemma coordinate_shift (c gmin gmax gmin' gmax' d : Q) (M : nat) :
  gmin' == gmin + c -> gmax' == gmax + c ->
  coordinate gmin' gmax' M (d + c) == coordinate gmin gmax M d.
Proof.
  intros E1 E2. unfold coordinate, spacing. rewrite E1, E2.
  setoid_replace (d + c - (gmin + c)) with (d - gmin) by ring.
  setoid_replace (gmax + c - (gmin + c)) with (gmax - gmin) by ring.
  reflexivity.
Qed.

(** Adding one constant to every sample and to every grid point leaves the
    outcome of [linbin_numpy] unchanged: the result depends on the data only
    through their position relative to the grid. *)
Theorem linbin_numpy_shift (data grid_points : list Q)
    (weights : option (list Q)) (c gmin gmax : Q) :
  assert_equidistant grid_points = Return tt ->
  np.min grid_points = Return gmin ->
  np.max grid_points = Return gmax ->
  gmin < gmax ->
  length data = length (weights_or_ones data weights) ->
  ~ np.sum (weights_or_ones data weights) == 0 ->
  outcome_eq
    (linbin_numpy (finite data) (finite grid_points) (finite_opt weights))
    (linbin_numpy (finite (map (fun d => d + c) data))
                  (finite (map (fun g => g + c) grid_points))
                  (finite_opt weights)).
Proof.
  intros Hg Hmin Hmax _ Hl _.
  destruct grid_points as [|x g]; [discriminate Hg|].
  injection Hmin as Hmin. injection Hmax as Hmax.
  set (grid := x :: g) in *.
  set (gmin' := fold_left Qmin (map (fun y => y + c) g) (x + c)).
  set (gmax' := fold_left Qmax (map (fun y => y + c) g) (x + c)).
  assert (E1 : gmin' == gmin + c)
    by (rewrite <- Hmin; apply fold_min_shift; reflexivity).
  assert (E2 : gmax' == gmax + c)
    by (rewrite <- Hmax; apply fold_max_shift; reflexivity).
  assert (W : weights_or_ones (map (fun d => d + c) data) weights
              = weights_or_ones data weights).
  { destruct weights; simpl; [reflexivity|].
    unfold np.ones_like. rewrite map_map. reflexivity. }
  assert (T : Forall2 Qeq
                (map (coordinate gmin gmax (length grid)) data)
                (map (coordinate gmin' gmax' (length grid))
                     (map (fun d => d + c) data))).
  { rewrite map_map. apply Forall2_map_ext. intros d.
    symmetry. apply coordinate_shift; assumption. }
  apply (numpy_equiv data (map (fun d => d + c) data) grid
           (map (fun y => y + c) grid) weights weights gmin gmax gmin' gmax').
  - apply length_map.
  - exact Hg.
  - rewrite assert_equidistant_shift. exact Hg.
  - unfold grid. simpl. rewrite Hmin. reflexivity.
  - unfold grid. simpl. rewrite Hmax. reflexivity.
  - reflexivity.
  - reflexivity.
  - exact Hl.
  - rewrite W, length_map. exact Hl.
  - split; apply overflows_comp; [exact T | apply Forall2_Qeq_sym, T].
  - intros j _. rewrite W. apply scatter_comp; [exact T | apply Forall2_Qeq_refl].
Qed.

(** ** Grid points and their coordinates *)

Lemma grid_point_coordinate (gmin gmax : Q) (M j : nat) :
  gmin < gmax -> (2 <= M)%nat ->
  coordinate gmin gmax M (grid_point gmin gmax M j) == inject_Z (Z.of_nat j).
Proof.
  intros Hw HM. pose proof (spacing_pos gmin gmax M Hw HM) as Hp.
  unfold coordinate, grid_point. field. lra.
Qed.

Lemma coordinate_times_spacing (gmin gmax d : Q) (M : nat) :
  gmin < gmax -> (2 <= M)%nat ->
  coordinate gmin gmax M d * spacing gmin gmax M == d - gmin.
Proof.
  intros Hw HM. pose proof (spacing_pos gmin gmax M Hw HM) as Hp.
  unfold coordinate. field. lra.
Qed.

(** ** The mean of the data is kept *)







(** ** Bounds on the bucket *)



(** ** The transformed coordinate *)

(** [transform] maps the data to grid coordinates: on a grid that passed
    its check with [gmin < gmax], a sample lies inside [[gmin, gmax]] exactly
    when its coordinate lies in [[0, M - 1]], the two ends of the grid go to
    [0] and [M - 1], and the order of the samples is kept. *)
Theorem transform_positions (data grid_points : list Q) (gmin gmax : Q) :
  let M := length grid_points in
  assert_equidistant grid_points = Return tt ->
  np.min grid_points = Return gmin ->
  np.max grid_points = Return gmax ->
  gmin < gmax ->
  transform data grid_points = Return (map (coordinate gmin gmax M) data)
  /\ coordinate gmin gmax M gmin == 0
  /\ coordinate gmin gmax M gmax == inject_Z (Z.of_nat M - 1)
  /\ (forall d, gmin <= d <= gmax
                <-> 0 <= coordinate gmin gmax M d <= inject_Z (Z.of_nat M - 1))
  /\ (forall d d', d <= d' <->
                   coordinate gmin gmax M d <= coordinate gmin gmax M d').
Proof.
  intros M Hg Hmin Hmax Hw.
  assert (HM : (2 <= M)%nat) by (apply assert_equidistant_two; exact Hg).
  pose proof (spacing_pos gmin gmax M Hw HM) as Hp.
  pose proof (spacing_intervals gmin gmax M HM) as Hs.
  assert (Ht : forall d, coordinate gmin gmax M d * spacing gmin gmax M
                         == d - gmin)
    by (intros d; apply coordinate_times_spacing; assumption).
  split; [apply transform_coordinates; assumption|].
  split; [unfold coordinate; field; lra|].
  split; [apply coordinate_last; [assumption | assumption | reflexivity]|].
  split.
  - intros d. split; [apply coordinate_range; assumption|].
    intros [H0 H1]. pose proof (Ht d) as E.
    set (t := coordinate gmin gmax M d) in *.
    set (dx := spacing gmin gmax M) in *.
    assert (A : 0 <= t * dx) by (apply Qmult_le_0_compat; lra).
    assert (B : t * dx <= inject_Z (Z.of_nat M - 1) * dx)
      by (apply Qmult_le_compat_r; lra).
    lra.
  - intros d d'. pose proof (Ht d) as E. pose proof (Ht d') as E'.
    set (t := coordinate gmin gmax M d) in *.
    set (t' := coordinate gmin gmax M d') in *.
    set (dx := spacing gmin gmax M) in *.
    split; intros H.
    + apply Qmult_le_r with dx; [exact Hp|]. lra.
    + assert (B : t * dx <= t' * dx) by (apply Qmult_le_compat_r; lra).
      lra.
Qed.

(** ** Equal weights *)

Lemma sum_map_const {A : Type} (c : Q) (l : list A) :
  np.sum (map (fun _ => c) l) == c * inject_Z (Z.of_nat (length l)).
Proof.
  induction l as [|x l IH].
  - simpl. ring.
  - cbn [map np.sum fold_right length]. fold (np.sum (map (fun _ : A => c) l)).
    rewrite IH, Nat2Z.inj_succ, <- Z.add_1_l, inject_Z_plus.
    change (inject_Z 1) with 1. ring.
Qed.

(** Weights that are all equal to one non-zero number give the outcome of
    [linbin_numpy] without weights. *)
Theorem linbin_numpy_equal_weights (data grid_points : list Q)
    (c gmin gmax : Q) :
  assert_equidistant grid_points = Return tt ->
  np.min grid_points = Return gmin ->
  np.max grid_points = Return gmax ->
  gmin < gmax ->
  data <> [] ->
  ~ c == 0 ->
  outcome_eq
    (linbin_numpy (finite data) (finite grid_points)
                  (finite_opt (Some (map (fun _ => c) data))))
    (linbin_numpy (finite data) (finite grid_points) (finite_opt None)).
Proof.
  intros Hg Hmin Hmax _ Hne Hc.
  apply (numpy_equiv data data grid_points grid_points
           (Some (map (fun _ => c) data)) None gmin gmax gmin gmax);
    try assumption; try reflexivity.
  - simpl. symmetry. apply length_map.
  - simpl. unfold np.ones_like. symmetry. apply length_map.
  - intros j _. cbn [weights_or_ones].
    apply scatter_comp; [apply Forall2_Qeq_refl|].
    unfold normalised, np.ones_like. rewrite !map_map.
    apply Forall2_map_ext. intros _.
    rewrite (sum_map_const c data), (sum_map_const 1 data).
    assert (N : ~ inject_Z (Z.of_nat (length data)) == 0).
    { change 0 with (inject_Z 0). rewrite inject_Z_injective.
      destruct data; [congruence | simpl; lia]. }
    field. split; [exact N | exact Hc].
Qed.

(** ** Samples placed relative to the grid *)

(** The statements of this part fix where the samples lie relative to the
    grid, in the data's own units: inside [[gmin, gmax]], or a stated part
    of a grid step away from the coordinates [-1], [M] and [M + 1] at which
    the behaviour of [linbin_numpy] changes. *)






(** Samples between [gmin] and half a grid step above [gmax]:
    [linbin_numpy] returns [M] non-negative cells that sum to at most one. *)
Theorem linbin_numpy_mass (data grid_points : list Q)
    (weights : option (list Q)) (gmin gmax : Q) :
  assert_equidistant grid_points = Return tt ->
  np.min grid_points = Return gmin ->
  np.max grid_points = Return gmax ->
  gmin < gmax ->
  length data = length (weights_or_ones data weights) ->
  Forall (fun w => 0 <= w) (weights_or_ones data weights) ->
  ~ np.sum (weights_or_ones data weights) == 0 ->
  Forall (fun d => gmin <= d
                   <= gmax + (1 # 2) * spacing gmin gmax (length grid_points))
         data ->
  exists out,
    linbin_numpy (finite data) (finite grid_points) (finite_opt weights)
    = Return out
    /\ length out = length grid_points
    /\ Forall (fun x => 0 <= x) out
    /\ np.sum out <= 1.
Proof.
  intros Hg Hmin Hmax Hw Hl Hp Hs Hin.
  assert (HM : (2 <= length grid_points)%nat)
    by (apply assert_equidistant_two; exact Hg).
  set (M := length grid_points) in *.
  pose proof (spacing_pos gmin gmax M Hw HM) as Hdx.
  pose proof (spacing_intervals gmin gmax M HM) as Hiv.
  apply (numpy_mass_bounded data grid_points weights gmin gmax
           Hg Hmin Hmax Hw Hl Hp Hs).
  - eapply Forall_impl; [|exact Hin]. simpl. intros d Hd. apply Hd.
  - fold M. apply Forall_forall. intros t Ht. apply in_map_iff in Ht.
    destruct Ht as [d [<- Hd]]. rewrite Forall_forall in Hin.
    destruct (Hin d Hd) as [Hlo Hhi].
    pose proof (coordinate_times_spacing gmin gmax d M Hw HM) as Ht.
    set (t := coordinate gmin gmax M d) in *.
    assert (T0 : 0 <= t).
    { apply Qmult_le_r with (spacing gmin gmax M); [exact Hdx | lra]. }
    assert (T1 : t < inject_Z (Z.of_nat M)).
    { rewrite (inject_Z_intervals M).
      apply Qmult_lt_r with (spacing gmin gmax M); [exact Hdx | lra]. }
    destruct (integral_of_nonneg_bounds t T0) as [_ Hb].
    intros E. rewrite E in Hb. lra.
Qed.







(** *** The sample on the last grid point *)




Lemma linbin_numpy_mass_witness :
  exists out,
    linbin_numpy (finite [1; 5 # 2; 0]) (finite [0; 1; 2]) None = Return out
    /\ length out = 3%nat
    /\ Forall (fun x => 0 <= x) out
    /\ np.sum out <= 1.
Proof.
  apply (linbin_numpy_mass [1; 5 # 2; 0] [0; 1; 2] None 0 2).
  - reflexivity.
  - reflexivity.
  - reflexivity.
  - reflexivity.
  - reflexivity.
  - in_range_instance.
  - vm_compute. discriminate.
  - in_range_instance.
Defined.

(** *** The triangular kernel *)




(** *** Samples above the last grid point *)

(** A sample between [5/4] and [7/4] grid steps above the last grid point
    has the bucket [M]. *)
Lemma above_range_bucket (gmin gmax d : Q) (M : nat) :
  gmin < gmax -> (2 <= M)%nat ->
  gmax + (5 # 4) * spacing gmin gmax M <= d
       <= gmax + (7 # 4) * spacing gmin gmax M ->
  integral_of (coordinate gmin gmax M d) = Z.of_nat M.
Proof.
  intros Hw HM [Hlo Hhi].
  pose proof (spacing_pos gmin gmax M Hw HM) as Hdx.
  pose proof (spacing_intervals gmin gmax M HM) as Hiv.
  pose proof (coordinate_times_spacing gmin gmax d M Hw HM) as Ht.
  set (t := coordinate gmin gmax M d) in *.
  apply integral_of_between; [lia | |].
  - rewrite (inject_Z_intervals M).
    apply Qmult_le_r with (spacing gmin gmax M); [exact Hdx | lra].
  - rewrite inject_Z_plus, (inject_Z_intervals M). change (inject_Z 1) with 1.
    apply Qmult_lt_r with (spacing gmin gmax M); [exact Hdx | lra].
Qed.

(** One sample between [5/4] and [7/4] grid steps above the last grid point
    makes [linbin_numpy] raise [IndexError], wherever the other samples lie
    and whatever the weights are: its bucket [M] passes the filter
    [unique_integrals <= len(grid_points)] and [result[grid_point + 1]] is
    one past the end of the accumulator. *)
Theorem linbin_numpy_overflow (data grid_points : list Q)
    (weights : option (list Q)) (gmin gmax : Q) :
  let M := length grid_points in
  let dx := spacing gmin gmax M in
  assert_equidistant grid_points = Return tt ->
  np.min grid_points = Return gmin ->
  np.max grid_points = Return gmax ->
  gmin < gmax ->
  length data = length (weights_or_ones data weights) ->
  Exists (fun d => gmax + (5 # 4) * dx <= d <= gmax + (7 # 4) * dx) data ->
  linbin_numpy (finite data) (finite grid_points) (finite_opt weights)
  = Raise IndexError.
Proof.
  intros M dx Hg Hmin Hmax Hw Hl Hex.
  assert (HM : (2 <= M)%nat) by (apply assert_equidistant_two; exact Hg).
  apply (numpy_bucket_raises data grid_points weights gmin gmax
           Hg Hmin Hmax Hl).
  apply Exists_exists in Hex. destruct Hex as [d [Hd Hr]].
  apply Exists_exists. exists (coordinate gmin gmax M d). split.
  - apply in_map. exact Hd.
  - apply above_range_bucket; assumption.
Qed.

Lemma linbin_numpy_overflow_witness :
  linbin_numpy (finite [1; 7 # 2; -4]) (finite [0; 1; 2])
               (finite_opt (Some [1; 2; 3])) = Raise IndexError.
Proof.
  apply (linbin_numpy_overflow [1; 7 # 2; -4] [0; 1; 2] (Some [1; 2; 3]) 0 2).
  - reflexivity.
  - reflexivity.
  - reflexivity.
  - reflexivity.
  - reflexivity.
  - apply Exists_cons_tl. apply Exists_cons_hd.
    vm_compute. split; discriminate.
Defined.

(** The same through [linear_binning] on the NumPy strategy, whatever the
    weights argument. *)
Theorem linear_binning_overflow (data grid_points : list Q)
    (weights : option (list np_float)) (gmin gmax d : Q) :
  let M := length grid_points in
  let dx := spacing gmin gmax M in
  assert_equidistant grid_points = Return tt ->
  np.min grid_points = Return gmin ->
  np.max grid_points = Return gmax ->
  gmin < gmax ->
  In d data ->
  gmax + (5 # 4) * dx <= d <= gmax + (7 # 4) * dx ->
  linear_binning None (finite data) (finite grid_points) weights
  = Raise IndexError.
Proof.
  intros M dx Hg Hmin Hmax Hw Hd Hr.
  assert (HM : (2 <= M)%nat) by (apply assert_equidistant_two; exact Hg).
  unfold linear_binning.
  change (@None (list np_float)) with (finite_opt None).
  apply (numpy_bucket_raises data grid_points None gmin gmax Hg Hmin Hmax).
  - simpl. unfold np.ones_like. rewrite length_map. reflexivity.
  - apply Exists_exists. exists (coordinate gmin gmax M d). split.
    + apply in_map. exact Hd.
    + apply above_range_bucket; assumption.
Qed.

Lemma linear_binning_overflow_witness :
  linear_binning None (finite [1; 7 # 2]) (finite [0; 1; 2])
                 (Some (finite [1; 1])) = Raise IndexError.
Proof.
  apply (linear_binning_overflow [1; 7 # 2] [0; 1; 2] (Some (finite [1; 1]))
           0 2 (7 # 2)).
  - reflexivity.
  - reflexivity.
  - reflexivity.
  - reflexivity.
  - right. left. reflexivity.
  - vm_compute. split; discriminate.
Defined.

(** *** A sample far from the grid *)




(** *** Linear interpolation between two grid points *)



(** *** A grid point far from every sample *)



(** ** Instances of the invariance theorems *)


Lemma linear_binning_permutation_witness :
  outcome_eq
    (linear_binning None (finite [1; 3 # 2; 28 # 10]) (finite [1; 2; 3]) None)
    (linear_binning None (finite [3 # 2; 1; 28 # 10]) (finite [1; 2; 3]) None).
Proof.
  apply (linear_binning_permutation [1; 3 # 2; 28 # 10] [3 # 2; 1; 28 # 10]
           [1; 2; 3] None None 1 3).
  - reflexivity.
  - reflexivity.
  - reflexivity.
  - reflexivity.
  - discriminate.
  - apply perm_swap.
Defined.


Lemma linbin_numpy_shift_witness :
  outcome_eq
    (linbin_numpy (finite [2; 5 # 2; 3; 4]) (finite [0; 1; 2; 3; 4; 5])
                  (finite_opt None))
    (linbin_numpy (finite (map (fun d => d + (3 # 2)) [2; 5 # 2; 3; 4]))
                  (finite (map (fun g => g + (3 # 2)) [0; 1; 2; 3; 4; 5]))
                  (finite_opt None)).
Proof.
  apply (linbin_numpy_shift [2; 5 # 2; 3; 4] [0; 1; 2; 3; 4; 5] None
           (3 # 2) 0 5).
  - reflexivity.
  - reflexivity.
  - reflexivity.
  - reflexivity.
  - reflexivity.
  - vm_compute. discriminate.
Defined.

Lemma linbin_numpy_equal_weights_witness :
  outcome_eq
    (linbin_numpy (finite [2; 5 # 2; 3; 4]) (finite [0; 1; 2; 3; 4; 5])
                  (finite_opt (Some (map (fun _ => 5 # 3) [2; 5 # 2; 3; 4]))))
    (linbin_numpy (finite [2; 5 # 2; 3; 4]) (finite [0; 1; 2; 3; 4; 5])
                  (finite_opt None)).
Proof.
  apply (linbin_numpy_equal_weights [2; 5 # 2; 3; 4] [0; 1; 2; 3; 4; 5]
           (5 # 3) 0 5).
  - reflexivity.
  - reflexivity.
  - reflexivity.
  - reflexivity.
  - discriminate.
  - vm_compute. discriminate.
Defined.


Lemma transform_positions_witness :
  transform [2; 5 # 2; 7] [0; 1; 2; 3; 4; 5]
  = Return (map (coordinate 0 5 6) [2; 5 # 2; 7])
  /\ coordinate 0 5 6 0 == 0
  /\ coordinate 0 5 6 5 == inject_Z (Z.of_nat 6 - 1)
  /\ (forall d, 0 <= d <= 5
                <-> 0 <= coordinate 0 5 6 d <= inject_Z (Z.of_nat 6 - 1))
  /\ (forall d d', d <= d' <-> coordinate 0 5 6 d <= coordinate 0 5 6 d').
Proof.
  apply (transform_positions [2; 5 # 2; 7] [0; 1; 2; 3; 4; 5] 0 5).
  - reflexivity.
  - reflexivity.
  - reflexivity.
  - reflexivity.
Defined.

Lemma nonfinite_rejected_witness :
  linbin_numpy [Finite 1; NaN] (finite [0; 1; 3]) (Some [Inf])
  = Raise (ValueError msg_nonfinite)
  /\ linbin_cython spec_cutils [Finite 1; NaN] (finite [0; 1; 3]) (Some [Inf])
     = Raise (ValueError msg_nonfinite)
  /\ linear_binning (Some spec_cutils) [Finite 1; NaN] (finite [0; 1; 3])
                    (Some [Inf]) = Raise (ValueError msg_nonfinite)
  /\ linear_binning None [Finite 1; NaN] (finite [0; 1; 3]) (Some [Inf])
     = Raise (ValueError msg_nonfinite).
Proof.
  apply (proj1 (nonfinite_rejected spec_cutils [Finite 1; NaN]
                  (finite [0; 1; 3]) (Some [Inf]))).
  reflexivity.
Defined.
